(** * Orbit simulation: trajectory engine, trail buffer and trail mesh builder

    A shallow embedding of [src/components/orbit/OrbitSimulation.tsx].

    Numbers.  A JavaScript [number] is modelled as a real number ([R]) and
    the arithmetic of the program as exact real arithmetic: rounding,
    overflow and the float32 storage of the geometry buffers are not
    modelled.  [Math.cos], [Math.sin], [Math.PI], [Math.sqrt] and
    [Math.max] are [cos], [sin], [PI], [sqrt] and [Rmax].  Array indices
    and the entries of the index buffer are natural numbers.

    Strings.  [specificOrbit] is a [string]; the string-literal union
    [OrbitType] is an inductive type with one constructor per literal. *)

From Stdlib Require Import Reals Lra Lia List String Bool Arith.
From Stdlib Require Import Sorted.
Import ListNotations.

Local Open Scope string_scope.
Local Open Scope list_scope.
Local Open Scope R_scope.

(** ** Types of the source *)

(** [type OrbitType = 'lagrange' | 'earth' | 'moon' | 'none'] *)
Inductive OrbitType : Set := lagrange | earth | moon | none.

(** [[number, number, number]] *)
Definition vec3 : Type := (R * R * R)%type.

(** The components [v[0]], [v[1]] and [v[2]] of a triple. *)
Definition at0 (v : vec3) : R := fst (fst v).
Definition at1 (v : vec3) : R := snd (fst v).
Definition at2 (v : vec3) : R := snd v.

(** [type TrailPoint = { position; timestamp; opacity }] *)
Record TrailPoint : Type := mkTrailPoint {
  position : vec3;
  timestamp : R;
  opacity : R
}.

(** ** The position function *)

(** [const BASE_ORBITAL_SPEED = 0.0001] *)
Definition BASE_ORBITAL_SPEED : R := 1 / 10000.

(** The interval callback of the [Moon] component: the position it sets
    when [Date.now()] reads [currentTime]. *)
Definition moonPosition (currentTime simulationSpeed : R) : vec3 :=
  let angle := currentTime * BASE_ORBITAL_SPEED * simulationSpeed in
  (10 * cos angle, 0, 10 * sin angle).

(** The inner [switch(orbit)] of the ["lagrange"] case. *)
Definition lagrangePosition (orbit : string) (angle : R) : vec3 :=
  let moonAngle := angle in
  let moonX := 10 * cos moonAngle in
  let moonZ := 10 * sin moonAngle in
  if (orbit =? "l1")%string then
    (moonX * (5 / 10), 0, moonZ * (5 / 10))
  else if (orbit =? "l2")%string then
    (moonX * (12 / 10), 0, moonZ * (12 / 10))
  else if (orbit =? "l3")%string then
    (- 10 * cos moonAngle, 0, - 10 * sin moonAngle)
  else if (orbit =? "l4")%string then
    let l4Angle := moonAngle + PI / 3 in
    (10 * cos l4Angle, 0, 10 * sin l4Angle)
  else if (orbit =? "l5")%string then
    let l5Angle := moonAngle - PI / 3 in
    (10 * cos l5Angle, 0, 10 * sin l5Angle)
  else if (orbit =? "l1_halo")%string then
    let l1Center := (moonX * (5 / 10), 0, moonZ * (5 / 10)) in
    (at0 l1Center + sin (angle * 2) * (5 / 10),
     sin (angle * 3) * (8 / 10),
     at2 l1Center + cos (angle * 2) * (5 / 10))
  else if (orbit =? "l2_halo")%string then
    let l2Center := (moonX * (12 / 10), 0, moonZ * (12 / 10)) in
    (at0 l2Center + sin (angle * 2) * (5 / 10),
     sin (angle * 3) * (8 / 10),
     at2 l2Center + cos (angle * 2) * (5 / 10))
  else if (orbit =? "l3_halo")%string then
    let l3Center := (- 10 * cos moonAngle, 0, - 10 * sin moonAngle) in
    let l3FastAngle := angle * 3 in
    (at0 l3Center + sin l3FastAngle * (15 / 10),
     sin (l3FastAngle * (12 / 10)) * 1,
     at2 l3Center + cos l3FastAngle * (15 / 10))
  else if (orbit =? "l4_lissajous")%string then
    let l4Center :=
      (10 * cos (moonAngle + PI / 3), 0, 10 * sin (moonAngle + PI / 3)) in
    let l4FastAngle := angle * 2 in
    (at0 l4Center + sin (l4FastAngle * (7 / 10)) * (12 / 10),
     sin (l4FastAngle * (11 / 10)) * (8 / 10),
     at2 l4Center + sin (l4FastAngle * (9 / 10)) * (12 / 10))
  else if (orbit =? "l5_lissajous")%string then
    let l5Center :=
      (10 * cos (moonAngle - PI / 3), 0, 10 * sin (moonAngle - PI / 3)) in
    let l5FastAngle := angle * 2 in
    (at0 l5Center + sin (l5FastAngle * (8 / 10)) * (12 / 10),
     sin (l5FastAngle * (12 / 10)) * (8 / 10),
     at2 l5Center + sin (l5FastAngle * 1) * (12 / 10))
  else
    (5, 0, 0).

(** The inner [switch(orbit)] of the ["earth"] case.  The source has two
    cases and a default; between them it only holds the comment
    "the other earth orbits are to be changed in the same way". *)
Definition earthPosition (orbit : string) (angle : R) : vec3 :=
  if (orbit =? "geo")%string then
    (4 * cos (angle * (1 / 10)), 0, 4 * sin (angle * (1 / 10)))
  else if (orbit =? "gso_equator")%string then
    (4 * cos (angle * (1 / 10)),
     sin (angle * (5 / 100)) * (2 / 10),
     4 * sin (angle * (1 / 10)))
  else
    (4, 0, 0).

(** The inner [switch(orbit)] of the ["moon"] case. *)
Definition moonFamilyPosition (orbit : string) (angle : R) : vec3 :=
  let moonAngle := angle in
  let moonX := 10 * cos moonAngle in
  let moonZ := 10 * sin moonAngle in
  if (orbit =? "llo_circular")%string then
    let lloAngle := angle * 5 in
    (moonX + cos lloAngle * (15 / 10), 0, moonZ + sin lloAngle * (15 / 10))
  else if (orbit =? "llo_elliptical")%string then
    let moonEccentricity := 3 / 10 in
    let moonSemiMajorAxis := 18 / 10 in
    let moonOrbitAngle := angle * 5 in
    let moonRadius :=
      moonSemiMajorAxis * (1 - moonEccentricity * cos moonOrbitAngle) in
    (moonX + moonRadius * cos moonOrbitAngle,
     0,
     moonZ + moonRadius * sin moonOrbitAngle)
  else if (orbit =? "llo_polar")%string then
    let polarAngle := angle * 5 in
    (moonX + cos polarAngle * (15 / 10), sin polarAngle * (15 / 10), moonZ)
  else if (orbit =? "frozen")%string then
    (moonX + cos angle * 2, sin (angle * (5 / 10)) * (5 / 10),
     moonZ + sin angle * 2)
  else if (orbit =? "transfer")%string then
    let transferPhase := (sin (angle * (5 / 100)) + 1) / 2 in
    (moonX * transferPhase,
     sin (angle * (2 / 10)) * (1 - transferPhase) * 2,
     moonZ * transferPhase)
  else if (orbit =? "distant")%string then
    (moonX + cos (angle * (3 / 10)) * 3,
     sin (angle * (3 / 10)) * 2,
     moonZ + sin (angle * (3 / 10)) * 3)
  else
    (moonX + 15 / 10, 0, moonZ).

(** [function calculateNewPosition(type, orbit, currentTime, simulationSpeed)] *)
Definition calculateNewPosition
    (type : OrbitType) (orbit : string) (currentTime simulationSpeed : R)
    : vec3 :=
  let angle := currentTime * BASE_ORBITAL_SPEED * simulationSpeed in
  match type with
  | lagrange => lagrangePosition orbit angle
  | earth => earthPosition orbit angle
  | moon => moonFamilyPosition orbit angle
  | none => (5, 0, 0)
  end.

(** The case labels of the three inner switches. *)
Definition lagrangeCases : list string :=
  ["l1"; "l2"; "l3"; "l4"; "l5"; "l1_halo"; "l2_halo"; "l3_halo";
   "l4_lissajous"; "l5_lissajous"].

Definition earthCases : list string := ["geo"; "gso_equator"].

Definition moonCases : list string :=
  ["llo_circular"; "llo_elliptical"; "llo_polar"; "frozen"; "transfer";
   "distant"].

(** [orbitOptions]: the identifiers the selection panel offers, per family
    (the display names are left out). *)
Definition orbitOptions (category : OrbitType) : list string :=
  match category with
  | lagrange =>
      ["l1"; "l2"; "l3"; "l4"; "l5"; "l1_halo"; "l2_halo"; "l3_halo";
       "l4_lissajous"; "l5_lissajous"]
  | earth =>
      ["geo"; "gso_equator"; "gso_mid"; "qzo_8"; "qzo_asym"; "molniya"]
  | moon =>
      ["llo_circular"; "llo_elliptical"; "llo_polar"; "frozen"; "transfer";
       "distant"]
  | none => []
  end.

(** [calculateOrbitPeriod(type, orbit)], in seconds. *)
Definition calculateOrbitPeriod (type : OrbitType) (orbit : string) : R :=
  match type with
  | lagrange => 60
  | earth =>
      if ((orbit =? "geo") || (orbit =? "gso_equator")
          || (orbit =? "gso_mid"))%string%bool then 40
      else if ((orbit =? "qzo_8") || (orbit =? "qzo_asym"))%string%bool
      then 30
      else if (orbit =? "molniya")%string then 50
      else 40
  | moon =>
      if ((orbit =? "llo_circular") || (orbit =? "llo_elliptical")
          || (orbit =? "llo_polar"))%string%bool then 20
      else if (orbit =? "frozen")%string then 30
      else if (orbit =? "transfer")%string then 100
      else if (orbit =? "distant")%string then 40
      else 30
  | none => 40
  end.

(** ** The trail buffer *)

(** The comparison [a <= b] of two numbers, as a boolean. *)
Definition Rleb (a b : R) : bool := if Rle_dec a b then true else false.

(** The updater that the interval callback of [Satellite] hands to
    [setTrail] when [showTrail] holds; [orbitPeriod] is
    [orbitPeriodRef.current]. *)
Definition updateTrail
    (orbitPeriod currentTime : R) (newPosition : vec3)
    (prev : list TrailPoint) : list TrailPoint :=
  let newPoint :=
    {| position := newPosition; timestamp := currentTime; opacity := 1 |} in
  let updatedTrail :=
    map (fun point =>
           {| position := position point;
              timestamp := timestamp point;
              opacity :=
                Rmax 0 (1 - ((currentTime - timestamp point) / 1000
                             - orbitPeriod) / orbitPeriod) |})
        prev in
  let filteredTrail :=
    filter (fun point =>
              Rleb ((currentTime - timestamp point) / 1000) (orbitPeriod * 2))
           updatedTrail in
  filteredTrail ++ [newPoint].

(** The two pieces of state the interval callback sets. *)
Record SatelliteState : Type := mkSatelliteState {
  satellitePosition : vec3;
  trail : list TrailPoint
}.

(** One run of the interval callback of [Satellite], at [Date.now() =
    currentTime].  The effect that installs the callback has stored
    [calculateOrbitPeriod(orbitType, specificOrbit)] in [orbitPeriodRef]. *)
Definition intervalTick
    (orbitType : OrbitType) (specificOrbit : string)
    (simulationSpeed : R) (showTrail : bool) (currentTime : R)
    (st : SatelliteState) : SatelliteState :=
  let orbitPeriod := calculateOrbitPeriod orbitType specificOrbit in
  let newPosition :=
    calculateNewPosition orbitType specificOrbit currentTime simulationSpeed in
  {| satellitePosition := newPosition;
     trail := if showTrail
              then updateTrail orbitPeriod currentTime newPosition (trail st)
              else [] |}.

(** The opacity formula in the words of the specification:
    [max(0, 1 - ((now - capturedAt)/1000 - activePeriod) / activePeriod)]. *)
Definition specOpacity (now activePeriod capturedAt : R) : R :=
  Rmax 0 (1 - ((now - capturedAt) / 1000 - activePeriod) / activePeriod).

(** The age of a sample in seconds, as the source computes it. *)
Definition ageSeconds (currentTime : R) (point : TrailPoint) : R :=
  (currentTime - timestamp point) / 1000.

(** ** The trail mesh builder *)

(** Modelled from the spec: [THREE.Vector3] is imported from the three.js
    package; its source is not part of the repository.  The specification
    asks for "the unit direction vector" and for a normalization that is
    guarded for the zero vector, so that a zero-length direction clamps the
    segment to zero width.  That is what three.js does:
    [normalize() { return this.divideScalar(this.length() || 1) }] and
    [divideScalar(s) { return this.multiplyScalar(1 / s) }].

    Division is the one operation of the builder that can leave the finite
    numbers, so it is the one operation the model makes partial: dividing
    by zero gives [None], which stands for a vector with a component that
    is not finite (JavaScript's [Infinity] or [NaN]). *)
Module Vector3.

Record t : Type := mk { x : R; y : R; z : R }.

Definition length (v : t) : R :=
  sqrt (x v * x v + y v * y v + z v * z v).

Definition multiplyScalar (v : t) (s : R) : t :=
  mk (x v * s) (y v * s) (z v * s).

Definition divideScalar (v : t) (scalar : R) : option t :=
  if Req_dec_T scalar 0 then None
  else Some (multiplyScalar v (1 / scalar)).

(** [a || 1] on numbers: [0] is falsy. *)
Definition orOne (a : R) : R := if Req_dec_T a 0 then 1 else a.

Definition normalize (v : t) : option t :=
  divideScalar v (orOne (length v)).

End Vector3.

(** [THREE.Color], as far as the builder reads it: the three channels, and
    [multiplyScalar], which the caller uses to dim the base colour. *)
Record Color : Type := mkColor { r : R; g : R; b : R }.

Definition colorMultiplyScalar (c : Color) (s : R) : Color :=
  {| r := r c * s; g := g c * s; b := b c * s |}.

(** What [generateTrailGeometry] hands to the renderer: the ['position']
    and ['color'] attributes (three numbers per vertex) and the index. *)
Record BufferGeometry : Type := mkBufferGeometry {
  positions : list R;
  vertexColors : list R;
  indices : list nat
}.

(** [new Float32Array(n)]: [n] zeros. *)
Definition Float32Array (n : nat) : list R := repeat 0 n.

(** [a[i] = v] on a typed array; a write past the end is ignored. *)
Fixpoint store (a : list R) (i : nat) (v : R) : list R :=
  match a, i with
  | [], _ => []
  | _ :: rest, O => v :: rest
  | h :: rest, S j => h :: store rest j v
  end.

(** Sequencing of steps that may fail. *)
Definition bind {A B : Type} (m : option A) (k : A -> option B) : option B :=
  match m with
  | Some a => k a
  | None => None
  end.

Notation "x <- m ;; k" := (bind m (fun x => k))
  (at level 61, m at next level, right associativity).

(** The body of the first loop of [generateTrailGeometry] at index [i],
    acting on the two buffers.  [None] stands for a run that throws
    ([colors[i].r] with [colors[i]] undefined) or that computes a number
    that is not finite ([lineWidths[i]] undefined, or a division by zero). *)
Definition writeSegment
    (points : list vec3) (colors : list Color) (lineWidths : list R)
    (i : nat) (buffers : list R * list R) : option (list R * list R) :=
  let '(positions, vertexColors) := buffers in
  current <- nth_error points i ;;
  next <- nth_error points (i + 1) ;;
  direction <-
    Vector3.normalize
      (Vector3.mk (at0 next - at0 current)
                  (at1 next - at1 current)
                  (at2 next - at2 current)) ;;
  perpendicular <-
    Vector3.normalize
      (Vector3.mk (- Vector3.z direction) 0 (Vector3.x direction)) ;;
  lineWidth <- nth_error lineWidths i ;;
  let width := lineWidth * (1 / 10) in
  let positions :=
    store positions (i * 6) (at0 current + Vector3.x perpendicular * width) in
  let positions := store positions (i * 6 + 1) (at1 current) in
  let positions :=
    store positions (i * 6 + 2)
          (at2 current + Vector3.z perpendicular * width) in
  let positions :=
    store positions (i * 6 + 3)
          (at0 current - Vector3.x perpendicular * width) in
  let positions := store positions (i * 6 + 4) (at1 current) in
  let positions :=
    store positions (i * 6 + 5)
          (at2 current - Vector3.z perpendicular * width) in
  color <- nth_error colors i ;;
  let vertexColors := store vertexColors (i * 6) (r color) in
  let vertexColors := store vertexColors (i * 6 + 1) (g color) in
  let vertexColors := store vertexColors (i * 6 + 2) (b color) in
  let vertexColors := store vertexColors (i * 6 + 3) (r color) in
  let vertexColors := store vertexColors (i * 6 + 4) (g color) in
  let vertexColors := store vertexColors (i * 6 + 5) (b color) in
  Some (positions, vertexColors).

(** The first loop, over the indices [ixs] in order. *)
Fixpoint writeSegments
    (points : list vec3) (colors : list Color) (lineWidths : list R)
    (ixs : list nat) (buffers : list R * list R)
    : option (list R * list R) :=
  match ixs with
  | [] => Some buffers
  | i :: rest =>
      buffers' <- writeSegment points colors lineWidths i buffers ;;
      writeSegments points colors lineWidths rest buffers'
  end.

(** The six indices the second loop pushes at [i]. *)
Definition segmentIndices (i : nat) : list nat :=
  let base := (i * 2)%nat in
  [base; base + 1; base + 2; base + 2; base + 1; base + 3]%nat.

(** [generateTrailGeometry(points, colors, lineWidths)].  Both loops run
    [i] from [0] while [i < points.length - 1]. *)
Definition generateTrailGeometry
    (points : list vec3) (colors : list Color) (lineWidths : list R)
    : option BufferGeometry :=
  let positions := Float32Array (List.length points * 6) in
  let vertexColors := Float32Array (List.length points * 6) in
  buffers <-
    writeSegments points colors lineWidths
                  (seq 0 (List.length points - 1))
                  (positions, vertexColors) ;;
  let indices := flat_map segmentIndices (seq 0 (List.length points - 1)) in
  Some {| positions := fst buffers;
          vertexColors := snd buffers;
          indices := indices |}.

(** The body of the [useFrame] callback of [Satellite], which runs when
    the trail has more than one point: the three parallel arrays it
    collects from the trail, and the geometry it builds from them.
    [color] is [new THREE.Color(satelliteColor)]. *)
Definition trailGeometry (color : Color) (trail : list TrailPoint)
    : option BufferGeometry :=
  generateTrailGeometry
    (map position trail)
    (map (fun point => colorMultiplyScalar color (opacity point)) trail)
    (map opacity trail).

(** ** Reading the geometry *)

(** Vertex [k] of a geometry: entries [3k], [3k+1], [3k+2] of the position
    attribute. *)
Definition vertex (geometry : BufferGeometry) (k : nat) : vec3 :=
  (nth (3 * k) (positions geometry) 0,
   nth (3 * k + 1) (positions geometry) 0,
   nth (3 * k + 2) (positions geometry) 0).

(** The colour of vertex [k]. *)
Definition vertexColor (geometry : BufferGeometry) (k : nat) : vec3 :=
  (nth (3 * k) (vertexColors geometry) 0,
   nth (3 * k + 1) (vertexColors geometry) 0,
   nth (3 * k + 2) (vertexColors geometry) 0).

(** The index buffer read three entries at a time. *)
Fixpoint triangles (index : list nat) : list (nat * nat * nat) :=
  match index with
  | i :: j :: k :: rest => (i, j, k) :: triangles rest
  | _ => []
  end.

Definition vsub (u v : vec3) : vec3 :=
  (at0 u - at0 v, at1 u - at1 v, at2 u - at2 v).

Definition cross (u v : vec3) : vec3 :=
  (at1 u * at2 v - at2 u * at1 v,
   at2 u * at0 v - at0 u * at2 v,
   at0 u * at1 v - at1 u * at0 v).

(** A triangle has zero area exactly when the cross product of two of its
    edges vanishes. *)
Definition zeroArea (a b c : vec3) : Prop :=
  cross (vsub b a) (vsub c a) = (0, 0, 0).

Definition triangleZeroArea
    (geometry : BufferGeometry) (t : nat * nat * nat) : Prop :=
  let '(i, j, k) := t in
  zeroArea (vertex geometry i) (vertex geometry j) (vertex geometry k).

(** The eviction rule with the boundary included: after a tick at time
    [now], no sample of the buffer was captured two periods or more before
    [now]. *)
Definition absentFromTwoPeriodsOn : Prop :=
  forall (orbitType : OrbitType) (specificOrbit : string)
         (simulationSpeed now : R) (st : SatelliteState) (p : TrailPoint),
    In p (trail (intervalTick orbitType specificOrbit simulationSpeed true
                              now st)) ->
    ~ (timestamp p / 1000 + 2 * calculateOrbitPeriod orbitType specificOrbit
       <= now / 1000).

(** ** The values the builder writes *)

(** The value of [normalize]: the vector scaled by the inverse of
    [length() || 1]. *)
Definition unitOf (v : Vector3.t) : Vector3.t :=
  Vector3.multiplyScalar v (1 / Vector3.orOne (Vector3.length v)).

(** The [perpendicular] of the segment from [current] to [next]. *)
Definition segmentPerpendicular (current next : vec3) : Vector3.t :=
  let direction :=
    unitOf (Vector3.mk (at0 next - at0 current)
                       (at1 next - at1 current)
                       (at2 next - at2 current)) in
  unitOf (Vector3.mk (- Vector3.z direction) 0 (Vector3.x direction)).

(** The six numbers the loop body stores in [positions] for a segment. *)
Definition segmentPositions (current next : vec3) (lineWidth : R) : list R :=
  let perpendicular := segmentPerpendicular current next in
  let width := lineWidth * (1 / 10) in
  [at0 current + Vector3.x perpendicular * width;
   at1 current;
   at2 current + Vector3.z perpendicular * width;
   at0 current - Vector3.x perpendicular * width;
   at1 current;
   at2 current - Vector3.z perpendicular * width].

(** The six numbers the loop body stores in [vertexColors]. *)
Definition segmentColors (color : Color) : list R :=
  [r color; g color; b color; r color; g color; b color].

(** What the first [n] rounds of the loop have stored, in order. *)
Definition writtenPositions
    (points : list vec3) (lineWidths : list R) (n : nat) : list R :=
  flat_map (fun i => segmentPositions (nth i points (0, 0, 0))
                                      (nth (i + 1) points (0, 0, 0))
                                      (nth i lineWidths 0))
           (seq 0 n).

Definition writtenColors (colors : list Color) (n : nat) : list R :=
  flat_map (fun i => segmentColors (nth i colors (mkColor 0 0 0))) (seq 0 n).

(** Three points on one line: the cross product of the two displacements
    from the first point vanishes. *)
Definition collinear (p0 p1 p2 : vec3) : Prop :=
  cross (vsub p1 p0) (vsub p2 p0) = (0, 0, 0).

(** The mesh round trip as the specification words it, for three
    collinear, pairwise distinct samples of opacity 1.0 (so of line width
    1.0): six vertices, six indices, and no triangle of zero area. *)
Definition meshRoundTripAsWorded : Prop :=
  forall (p0 p1 p2 : vec3) (c0 c1 c2 : Color),
    collinear p0 p1 p2 -> p0 <> p1 -> p1 <> p2 -> p0 <> p2 ->
    exists geometry : BufferGeometry,
      generateTrailGeometry [p0; p1; p2] [c0; c1; c2] [1; 1; 1]
      = Some geometry
      /\ List.length (positions geometry) = (6 * 3)%nat
      /\ List.length (indices geometry) = 6%nat
      /\ forall t, In t (triangles (indices geometry)) ->
                   ~ triangleZeroArea geometry t.

(** ** The rest of the scene *)

(** The points of the line that [MoonOrbit] draws: for [i] from [0] to
    [segments], at the angle [(i / segments) * Math.PI * 2]. *)
Definition moonOrbitSegments : nat := 64.

Definition moonOrbitPoints : list vec3 :=
  map (fun i : nat =>
         let angle := INR i / INR moonOrbitSegments * PI * 2 in
         (10 * cos angle, 0, 10 * sin angle))
      (seq 0 (moonOrbitSegments + 1)).

(** The square of the distance between two points. *)
Definition distanceSquared (u v : vec3) : R :=
  (at0 u - at0 v) * (at0 u - at0 v)
  + (at1 u - at1 v) * (at1 u - at1 v)
  + (at2 u - at2 v) * (at2 u - at2 v).

(** [prevOrbitRef.current] of [Satellite]. *)
Record OrbitRef : Type := mkOrbitRef {
  refType : OrbitType;
  refSpecific : string;
  refSpeed : R
}.

Definition OrbitType_eqb (a b : OrbitType) : bool :=
  match a, b with
  | lagrange, lagrange | earth, earth | moon, moon | none, none => true
  | _, _ => false
  end.

(** [a !== b] on numbers. *)
Definition Rneqb (a b : R) : bool := if Req_dec_T a b then false else true.

(** The first effect of [Satellite], run with the props [orbitType],
    [specificOrbit] and [simulationSpeed]: when one of them differs from
    what the ref holds, the trail is emptied and the ref updated. *)
Definition trailResetEffect
    (prevOrbitRef : OrbitRef) (orbitType : OrbitType)
    (specificOrbit : string) (simulationSpeed : R)
    (trail : list TrailPoint) : OrbitRef * list TrailPoint :=
  if negb (OrbitType_eqb (refType prevOrbitRef) orbitType)
     || negb (refSpecific prevOrbitRef =? specificOrbit)%string
     || Rneqb (refSpeed prevOrbitRef) simulationSpeed
  then ({| refType := orbitType; refSpecific := specificOrbit;
           refSpeed := simulationSpeed |}, [])
  else (prevOrbitRef, trail).

(** The test of the eviction filter of [updateTrail], and its
    recomputation of one sample. *)
Definition keepSample (orbitPeriod currentTime : R) (q : TrailPoint) : bool :=
  Rleb (ageSeconds currentTime q) (orbitPeriod * 2).

Definition refreshSample (orbitPeriod currentTime : R) (q : TrailPoint)
    : TrailPoint :=
  {| position := position q;
     timestamp := timestamp q;
     opacity := specOpacity currentTime orbitPeriod (timestamp q) |}.

(** Timestamps in capture order, none of them after [now]. *)
Definition chronological (now : R) (trail : list TrailPoint) : Prop :=
  StronglySorted (fun p q => timestamp p <= timestamp q) trail
  /\ Forall (fun p => timestamp p <= now) trail.

(** Consecutive timestamps at least [gap] apart. *)
Fixpoint spaced (gap : R) (stamps : list R) : Prop :=
  match stamps with
  | a :: (b :: _) as rest => a + gap <= b /\ spaced gap rest
  | _ => True
  end.

(** The state of the [OrbitSimulation] component and its handlers.  The
    sliders hold one number each. *)
Module App.

Record State : Type := mkState {
  orbitType : OrbitType;
  specificOrbit : string;
  simulationSpeed : R;
  satelliteSize : R;
  showTrail : bool;
  activeTab : OrbitType;
  isPaused : bool
}.

(** The initial values of the [useState] calls. *)
Definition initial : State :=
  {| orbitType := lagrange; specificOrbit := "l1"; simulationSpeed := 1;
     satelliteSize := 20; showTrail := true; activeTab := lagrange;
     isPaused := false |}.

(** [handleTabChange(value)]: the tab becomes the orbit type, and the
    first orbit of the category, when there is one, the specific orbit. *)
Definition handleTabChange (value : OrbitType) (st : State) : State :=
  {| orbitType := value;
     specificOrbit :=
       match orbitOptions value with
       | first :: _ => first
       | [] => specificOrbit st
       end;
     simulationSpeed := simulationSpeed st;
     satelliteSize := satelliteSize st;
     showTrail := showTrail st;
     activeTab := value;
     isPaused := isPaused st |}.


(** [handleReset()]: the state it sets at once, and the orbit that its
    [requestAnimationFrame] callback has captured. *)
Definition handleReset (st : State) : State * (OrbitType * string) :=
  ({| orbitType := none;
      specificOrbit := specificOrbit st;
      simulationSpeed := 1;
      satelliteSize := 20;
      showTrail := true;
      activeTab := activeTab st;
      isPaused := false |},
   (orbitType st, specificOrbit st)).

(** The callback that [handleReset] hands to [requestAnimationFrame]. *)
Definition restoreOrbit (captured : OrbitType * string) (st : State)
    : State :=
  {| orbitType := fst captured;
     specificOrbit := snd captured;
     simulationSpeed := simulationSpeed st;
     satelliteSize := satelliteSize st;
     showTrail := showTrail st;
     activeTab := activeTab st;
     isPaused := isPaused st |}.


(** [{orbitType !== 'none' && <Satellite ... />}] *)
Definition satelliteMounted (st : State) : bool :=
  negb (OrbitType_eqb (orbitType st) none).

End App.

(** * Properties *)

(** ** The position function *)

Section PositionFacts.

(** An identifier that is none of the case labels falls through a
    comparison with each of them. *)
Lemma eqb_other (orbit label : string) (labels : list string) :
  ~ In orbit (label :: labels) ->
  (orbit =? label)%string = false /\ ~ In orbit labels.
Proof.
  intros Hnot; split.
  - apply String.eqb_neq; intros ->; apply Hnot; left; reflexivity.
  - intros Hin; apply Hnot; right; exact Hin.
Qed.

Lemma lagrange_default (orbit : string) (angle : R) :
  ~ In orbit lagrangeCases -> lagrangePosition orbit angle = (5, 0, 0).
Proof.
  unfold lagrangeCases, lagrangePosition; intros H.
  repeat (apply eqb_other in H; destruct H as [-> H]).
  reflexivity.
Qed.

Lemma earth_default (orbit : string) (angle : R) :
  ~ In orbit earthCases -> earthPosition orbit angle = (4, 0, 0).
Proof.
  unfold earthCases, earthPosition; intros H.
  repeat (apply eqb_other in H; destruct H as [-> H]).
  reflexivity.
Qed.

Lemma moon_default (orbit : string) (angle : R) :
  ~ In orbit moonCases ->
  moonFamilyPosition orbit angle
  = (10 * cos angle + 15 / 10, 0, 10 * sin angle).
Proof.
  unfold moonCases, moonFamilyPosition; intros H.
  repeat (apply eqb_other in H; destruct H as [-> H]).
  reflexivity.
Qed.

(** Membership in a list of string literals is decided by evaluation. *)
Lemma not_in_by_eqb (orbit : string) (labels : list string) :
  existsb (String.eqb orbit) labels = false -> ~ In orbit labels.
Proof.
  intros Hex Hin.
  assert (Htrue : existsb (String.eqb orbit) labels = true).
  { apply existsb_exists; exists orbit; split;
      [exact Hin | apply String.eqb_refl]. }
  congruence.
Qed.

End PositionFacts.

(** C5.  Fallback policy of the position function.  For every time and
    speed: ["lagrange"] with the identifier ["nonexistent"] gives the
    fixed point (5,0,0); the family that is none of the three recognized
    ones gives the same single point (5,0,0); and an identifier that is
    none of the case labels of its family gives a position at a small
    fixed offset from the centre of the family: (5,0,0) from the origin
    for ["lagrange"], (4,0,0) from the origin for ["earth"], and
    (1.5,0,0) from the Moon's position for ["moon"].  No case fails: the
    function is total. *)
Theorem C5_fallback_positions :
  (forall t s : R, calculateNewPosition lagrange "nonexistent" t s = (5, 0, 0))
  /\ (forall (orbit : string) (t s : R),
        calculateNewPosition none orbit t s = (5, 0, 0))
  /\ (forall (orbit : string) (t s : R),
        ~ In orbit lagrangeCases ->
        calculateNewPosition lagrange orbit t s = (5, 0, 0))
  /\ (forall (orbit : string) (t s : R),
        ~ In orbit earthCases ->
        calculateNewPosition earth orbit t s = (4, 0, 0))
  /\ (forall (orbit : string) (t s : R),
        ~ In orbit moonCases ->
        calculateNewPosition moon orbit t s
        = (at0 (moonPosition t s) + 15 / 10, 0, at2 (moonPosition t s))).
Proof.
  split; [| split; [| split; [| split]]]; intros.
  - reflexivity.
  - reflexivity.
  - unfold calculateNewPosition; apply lagrange_default; assumption.
  - unfold calculateNewPosition; apply earth_default; assumption.
  - unfold calculateNewPosition, moonPosition, at0, at2; simpl.
    apply moon_default; assumption.
Qed.

Lemma C5_fallback_positions_witness :
  calculateNewPosition lagrange "l6" 0 1 = (5, 0, 0)
  /\ calculateNewPosition earth "leo" 0 1 = (4, 0, 0)
  /\ calculateNewPosition moon "nrho" 0 1
     = (at0 (moonPosition 0 1) + 15 / 10, 0, at2 (moonPosition 0 1)).
Proof.
  pose proof C5_fallback_positions as (_ & _ & Hl & He & Hm).
  split; [| split].
  - apply Hl, not_in_by_eqb; reflexivity.
  - apply He, not_in_by_eqb; reflexivity.
  - apply Hm, not_in_by_eqb; reflexivity.
Defined.

(** The offset that the ["llo_circular"] trajectory adds to its centre:
    a point of the circle of radius 1.5 at the local angle [angle * 5]. *)
Lemma llo_offset_radius (angle : R) :
  let lloAngle := angle * 5 in
  sqrt ((cos lloAngle * (15 / 10)) * (cos lloAngle * (15 / 10))
        + 0 * 0
        + (sin lloAngle * (15 / 10)) * (sin lloAngle * (15 / 10)))
  = 15 / 10.
Proof.
  intros lloAngle.
  pose proof (sin2_cos2 lloAngle) as Hunit; unfold Rsqr in Hunit.
  replace (_ + _ + _) with ((15 / 10) * (15 / 10)) by nra.
  apply sqrt_square; lra.
Qed.

(** C6.  Moon-phase consistency.  For every time and speed, the position
    the [Moon] component computes, (10 cos angle, 0, 10 sin angle), is
    the centre implied by the ["llo_circular"] trajectory: its position
    minus its own local-loop offset (1.5 cos(5 angle), 0, 1.5 sin(5 angle)),
    a vector of length 1.5.  The two agree exactly (in exact arithmetic),
    both being functions of the same angle. *)
Theorem C6_moon_phase_consistency (t s : R) :
  let angle := t * BASE_ORBITAL_SPEED * s in
  let offset := (cos (angle * 5) * (15 / 10), 0, sin (angle * 5) * (15 / 10)) in
  moonPosition t s = (10 * cos angle, 0, 10 * sin angle)
  /\ vsub (calculateNewPosition moon "llo_circular" t s) offset
     = moonPosition t s
  /\ sqrt (at0 offset * at0 offset + at1 offset * at1 offset
           + at2 offset * at2 offset) = 15 / 10.
Proof.
  intros angle offset; split; [reflexivity | split].
  - unfold calculateNewPosition, moonPosition, vsub, offset, at0, at1, at2.
    simpl. fold angle. f_equal; [f_equal |]; ring.
  - unfold offset, at0, at1, at2; simpl. apply llo_offset_radius.
Qed.

(** C7.  The selection panel offers six Earth-synchronous identifiers,
    but the position function has a trajectory for two of them only: for
    ["gso_mid"], ["qzo_8"], ["qzo_asym"] and ["molniya"] it returns the
    constant fallback (4,0,0) at every time and speed, so these four are
    neither distinct from one another nor non-constant. *)
Theorem C7_unimplemented_earth_orbits :
  (forall orbit : string,
      In orbit ["gso_mid"; "qzo_8"; "qzo_asym"; "molniya"] ->
      In orbit (orbitOptions earth))
  /\ (forall (orbit : string) (t s : R),
         In orbit ["gso_mid"; "qzo_8"; "qzo_asym"; "molniya"] ->
         calculateNewPosition earth orbit t s = (4, 0, 0)).
Proof.
  split.
  - intros orbit Hin; simpl in *; tauto.
  - intros orbit t s Hin; simpl in Hin.
    destruct Hin as [<- | [<- | [<- | [<- | []]]]]; reflexivity.
Qed.

Lemma C7_unimplemented_earth_orbits_witness :
  In "molniya" (orbitOptions earth)
  /\ calculateNewPosition earth "molniya" 12345 2 = (4, 0, 0)
  /\ calculateNewPosition earth "qzo_8" 0 1
     = calculateNewPosition earth "gso_mid" 777 (1 / 10).
Proof.
  pose proof C7_unimplemented_earth_orbits as [Hcat Hpos].
  split; [| split].
  - apply Hcat; simpl; tauto.
  - apply Hpos; simpl; tauto.
  - rewrite !Hpos by (simpl; tauto); reflexivity.
Defined.

Section TrigBounds.

(** The first two terms of the sine series bound the sine from below. *)
Lemma sin_lower (a : R) : 0 <= a -> a <= 4 -> a - a * a * a / 6 <= sin a.
Proof.
  intros Hlo Hhi.
  destruct (pre_sin_bound a 0 Hlo Hhi) as [Hseries _].
  apply Rle_trans with (2 := Hseries).
  unfold sin_approx, sin_term; simpl.
  right; field.
Qed.

(** [cos 1.55] is positive, so a quarter turn is more than 1.55. *)
Lemma PI_lower : 31 / 10 < PI.
Proof.
  enough (Hhalf : 155 / 100 < PI / 2) by lra.
  apply PI2_lower_bound; [lra |].
  destruct (pre_cos_bound (155 / 100) 1) as [Hseries _]; [lra | lra |].
  eapply Rlt_le_trans; [| exact Hseries].
  unfold cos_approx; simpl; unfold cos_term.
  rewrite !INR_IZR_INZ; cbv -[IZR].
  field_simplify.
  apply Rdiv_lt_0_compat; apply IZR_lt; reflexivity.
Qed.

Lemma sin_6_upper : sin 6 < - (15 / 100).
Proof.
  pose proof PI_lower as Hlo; pose proof PI_4 as Hhi.
  set (y := 2 * PI - 6).
  assert (Hy : 2 / 10 <= y <= 2) by (unfold y; lra).
  assert (Hflip : sin 6 = - sin y).
  { unfold y; rewrite <- sin_neg.
    replace (- (2 * PI - 6)) with (6 - 2 * PI) by ring.
    rewrite <- (sin_period (6 - 2 * PI) 1); f_equal; simpl; ring. }
  rewrite Hflip.
  pose proof (sin_lower y) as Hsin.
  assert (Hcubic : 15 / 100 < y - y * y * y / 6).
  { destruct (Rle_dec y 1) as [Hle | Hgt].
    - assert (y * y <= 1) by nra.
      assert (y * (y * y) <= y * 1) by (apply Rmult_le_compat_l; lra).
      lra.
    - assert (y * y <= 4) by nra.
      assert (y * (y * y) <= y * 4) by (apply Rmult_le_compat_l; lra).
      lra. }
  lra.
Qed.

Lemma sin_6_thousandths_lower : 5 / 1000 < sin (6 / 1000).
Proof. pose proof (sin_lower (6 / 1000)); lra. Qed.

End TrigBounds.

(** The ["l1"] trajectory is periodic in [currentTime], with the period
    of the phase: a full turn [2 PI] divided by the angular rate
    [BASE_ORBITAL_SPEED * simulationSpeed] (62 831.85... milliseconds at
    speed 1). *)
Lemma l1_true_period (t s : R) :
  s <> 0 ->
  calculateNewPosition lagrange "l1"
    (t + 2 * PI / (BASE_ORBITAL_SPEED * s)) s
  = calculateNewPosition lagrange "l1" t s.
Proof.
  intros Hs.
  unfold calculateNewPosition, lagrangePosition, BASE_ORBITAL_SPEED; simpl.
  replace ((t + 2 * PI / (1 / 10000 * s)) * (1 / 10000) * s)
    with (t * (1 / 10000) * s + 2 * INR 1 * PI) by (simpl; field; exact Hs).
  rewrite cos_period, sin_period; reflexivity.
Qed.

(** C3.  The ["l1"] trajectory does not repeat after the catalog period
    of 60 seconds.  At time 0 and speed 1 the satellite is at z = 0; one
    catalog period later it is at z = 5 sin 0.006 > 0.025 when the period
    is added to [currentTime] as it stands, and at z = 5 sin 6 < -0.75
    when the period is first converted to the milliseconds [currentTime]
    is measured in: the phase has advanced by 6 radians, short of the
    full turn of 2 PI. *)
Theorem C3_l1_catalog_period_mismatch :
  let period := calculateOrbitPeriod lagrange "l1" in
  period = 60
  /\ at2 (calculateNewPosition lagrange "l1" 0 1) = 0
  /\ 25 / 1000 < at2 (calculateNewPosition lagrange "l1" (0 + period / 1) 1)
  /\ at2 (calculateNewPosition lagrange "l1" (0 + 1000 * period / 1) 1)
     < - (75 / 100).
Proof.
  unfold calculateOrbitPeriod, calculateNewPosition, lagrangePosition,
    BASE_ORBITAL_SPEED, at2; simpl.
  split; [reflexivity | split; [| split]].
  - replace (0 * (1 / 10000) * 1) with 0 by lra.
    rewrite sin_0; lra.
  - replace ((0 + 60 / 1) * (1 / 10000) * 1) with (6 / 1000) by lra.
    pose proof sin_6_thousandths_lower; lra.
  - replace ((0 + 1000 * 60 / 1) * (1 / 10000) * 1) with 6 by lra.
    pose proof sin_6_upper; lra.
Qed.

(** ** The trail buffer *)

Section TrailFacts.

Lemma Rleb_true (a b : R) : Rleb a b = true <-> a <= b.
Proof.
  unfold Rleb; destruct (Rle_dec a b); split; intros; try easy; lra.
Qed.

(** Every period of the table is one of six positive numbers of seconds. *)
Lemma calculateOrbitPeriod_values (type : OrbitType) (orbit : string) :
  In (calculateOrbitPeriod type orbit) [20; 30; 40; 50; 60; 100].
Proof.
  unfold calculateOrbitPeriod; destruct type; simpl;
    repeat match goal with
           | |- context [if ?c then _ else _] => destruct c
           end; tauto.
Qed.

Lemma calculateOrbitPeriod_pos (type : OrbitType) (orbit : string) :
  0 < calculateOrbitPeriod type orbit.
Proof.
  pose proof (calculateOrbitPeriod_values type orbit) as Hin; simpl in Hin.
  repeat (destruct Hin as [<- | Hin]; [lra |]); contradiction.
Qed.

(** Filtering after a map that keeps the fields the test reads. *)
Lemma filter_after_map {A B : Type} (g : A -> B) (f : B -> bool)
    (l : list A) :
  filter f (map g l) = map g (filter (fun a => f (g a)) l).
Proof.
  induction l as [| a l IH]; simpl; [reflexivity |].
  destruct (f (g a)); simpl; rewrite IH; reflexivity.
Qed.

(** The shape of the buffer after an update: the retained samples of
    the old buffer, in their order and with recomputed opacity, then
    the new sample. *)
Lemma updateTrail_shape (orbitPeriod currentTime : R) (newPosition : vec3)
    (prev : list TrailPoint) :
  updateTrail orbitPeriod currentTime newPosition prev
  = (map (fun q =>
            {| position := position q;
               timestamp := timestamp q;
               opacity := specOpacity currentTime orbitPeriod (timestamp q) |})
         (filter (fun q => Rleb (ageSeconds currentTime q) (orbitPeriod * 2))
                 prev)
     ++ [{| position := newPosition; timestamp := currentTime;
            opacity := 1 |}])%list.
Proof.
  unfold updateTrail; rewrite filter_after_map; reflexivity.
Qed.

(** The recomputed opacity is the clamp at zero of [2 - age / period]. *)
Lemma specOpacity_linear (now activePeriod capturedAt : R) :
  activePeriod <> 0 ->
  specOpacity now activePeriod capturedAt
  = Rmax 0 (2 - (now - capturedAt) / 1000 / activePeriod).
Proof.
  intros Hp; unfold specOpacity; f_equal; field; exact Hp.
Qed.

(** Below one period of age the recomputed opacity is above 1. *)
Lemma specOpacity_above_one (now activePeriod capturedAt : R) :
  0 < activePeriod ->
  (now - capturedAt) / 1000 < activePeriod ->
  1 < specOpacity now activePeriod capturedAt.
Proof.
  intros Hp Hage; rewrite specOpacity_linear by lra.
  eapply Rlt_le_trans; [| apply Rmax_r].
  assert ((now - capturedAt) / 1000 / activePeriod < 1).
  { apply Rmult_lt_reg_r with activePeriod; [exact Hp |].
    replace ((now - capturedAt) / 1000 / activePeriod * activePeriod)
      with ((now - capturedAt) / 1000) by (field; lra).
    lra. }
  lra.
Qed.

(** From one period of age on, the recomputed opacity is in [0,1]. *)
Lemma specOpacity_unit_range (now activePeriod capturedAt : R) :
  0 < activePeriod ->
  activePeriod <= (now - capturedAt) / 1000 ->
  0 <= specOpacity now activePeriod capturedAt <= 1.
Proof.
  intros Hp Hage; rewrite specOpacity_linear by lra.
  assert (1 <= (now - capturedAt) / 1000 / activePeriod).
  { apply Rmult_le_reg_r with activePeriod; [exact Hp |].
    replace ((now - capturedAt) / 1000 / activePeriod * activePeriod)
      with ((now - capturedAt) / 1000) by (field; lra).
    lra. }
  split; [apply Rmax_l |].
  apply Rmax_lub; lra.
Qed.

End TrailFacts.

(** C1.  On every tick with the trail enabled, the buffer after the tick
    is: every sample of the old buffer that is retained (age at most two
    periods), in the old order, each with its opacity recomputed as
    max(0, 1 - ((now - capturedAt)/1000 - activePeriod) / activePeriod),
    followed by the new sample; activePeriod is the period of the active
    selector.  The recomputation reaches every retained sample, whatever
    opacity it had before. *)
Theorem C1_opacity_recomputed_every_tick
    (orbitType : OrbitType) (specificOrbit : string)
    (simulationSpeed currentTime : R) (st : SatelliteState) :
  let activePeriod := calculateOrbitPeriod orbitType specificOrbit in
  let retained :=
    filter (fun q => Rleb (ageSeconds currentTime q) (activePeriod * 2))
           (trail st) in
  trail (intervalTick orbitType specificOrbit simulationSpeed true
                      currentTime st)
  = (map (fun q =>
            {| position := position q;
               timestamp := timestamp q;
               opacity := specOpacity currentTime activePeriod (timestamp q) |})
         retained
     ++ [{| position :=
              calculateNewPosition orbitType specificOrbit currentTime
                                   simulationSpeed;
            timestamp := currentTime;
            opacity := 1 |}])%list.
Proof.
  intros activePeriod retained.
  unfold intervalTick; simpl.
  apply updateTrail_shape.
Qed.

(** C2.  A sample captured at time 0 and retained by the tick at time 16
    (milliseconds) of the ["l1"] orbit, whose period is 60 seconds, leaves
    the tick with opacity 2 - 16/60000, which is above 1: a sample younger
    than one period is not held at 1.0, and its opacity is not in [0,1]. *)
Theorem C2_young_sample_opacity_above_one :
  let sample := {| position := (5, 0, 0); timestamp := 0; opacity := 1 |} in
  let st := {| satellitePosition := (5, 0, 0); trail := [sample] |} in
  exists p : TrailPoint,
    nth_error (trail (intervalTick lagrange "l1" 1 true 16 st)) 0 = Some p
    /\ timestamp p = 0
    /\ opacity p = 2 - 16 / 60000
    /\ 1 < opacity p.
Proof.
  intros sample st.
  unfold intervalTick; simpl trail.
  rewrite updateTrail_shape; simpl.
  assert (Hkeep : Rleb (ageSeconds 16 sample) (60 * 2) = true).
  { apply Rleb_true; unfold ageSeconds; simpl; lra. }
  rewrite Hkeep; simpl.
  eexists; split; [reflexivity |]; simpl.
  assert (Hval : specOpacity 16 60 0 = 2 - 16 / 60000).
  { rewrite specOpacity_linear by lra.
    rewrite Rmax_right by lra; lra. }
  rewrite Hval; repeat split; lra.
Qed.

(** A sample that is exactly two periods old survives the tick: captured
    at time 0, it is still in the buffer of the ["l1"] orbit (period 60
    seconds) after the tick at 120 000 milliseconds. *)
Lemma C4_two_periods_old_is_retained : ~ absentFromTwoPeriodsOn.
Proof.
  intros Habsent.
  pose (sample := {| position := (5, 0, 0); timestamp := 0; opacity := 1 |}).
  pose (st := {| satellitePosition := (5, 0, 0); trail := [sample] |}).
  apply (Habsent lagrange "l1" 1 120000 st
                 {| position := (5, 0, 0); timestamp := 0;
                    opacity := specOpacity 120000 60 0 |}).
  - unfold intervalTick; simpl trail.
    rewrite updateTrail_shape; simpl.
    assert (Hkeep : Rleb (ageSeconds 120000 sample) (60 * 2) = true).
    { apply Rleb_true; unfold ageSeconds; simpl; lra. }
    rewrite Hkeep; simpl; left; reflexivity.
  - simpl; lra.
Qed.

(** C4.  After each tick with the trail enabled, every sample of the
    buffer has an age of at most twice the period of the active orbit, so
    a sample captured at t0 is absent at every tick later than
    t0 + 2 period.  At t0 + 2 period exactly the sample is still there,
    with opacity 0 (the period is positive for every selector). *)
Theorem C4_eviction_after_two_periods
    (orbitType : OrbitType) (specificOrbit : string)
    (simulationSpeed now : R) (st : SatelliteState) :
  let period := calculateOrbitPeriod orbitType specificOrbit in
  let after :=
    trail (intervalTick orbitType specificOrbit simulationSpeed true now st) in
  (forall p : TrailPoint, In p after -> ageSeconds now p <= 2 * period)
  /\ (forall p : TrailPoint,
        timestamp p / 1000 + 2 * period < now / 1000 -> ~ In p after)
  /\ (forall q : TrailPoint,
        In q (trail st) ->
        ageSeconds now q = 2 * period ->
        In {| position := position q; timestamp := timestamp q;
              opacity := 0 |} after).
Proof.
  intros period after.
  assert (Hpos : 0 < period) by apply calculateOrbitPeriod_pos.
  assert (Hafter :
            forall p, In p after <->
                      (exists q, In q (trail st)
                                 /\ ageSeconds now q <= period * 2
                                 /\ p = {| position := position q;
                                           timestamp := timestamp q;
                                           opacity := specOpacity now period
                                                        (timestamp q) |})
                      \/ p = {| position :=
                                  calculateNewPosition orbitType specificOrbit
                                                       now simulationSpeed;
                                timestamp := now; opacity := 1 |}).
  { intros p; unfold after, intervalTick; simpl trail.
    rewrite updateTrail_shape, in_app_iff, in_map_iff; fold period.
    split.
    - intros [(q & <- & Hq) | [<- | []]]; [left | right; reflexivity].
      apply filter_In in Hq; destruct Hq as [Hin Hkeep].
      apply Rleb_true in Hkeep; exists q; auto.
    - intros [(q & Hin & Hage & ->) | ->]; [left | right; left; reflexivity].
      exists q; split; [reflexivity |].
      apply filter_In; split; [exact Hin | apply Rleb_true; exact Hage]. }
  assert (Hbound : forall p, In p after -> ageSeconds now p <= 2 * period).
  { intros p Hin; apply Hafter in Hin.
    destruct Hin as [(q & _ & Hage & ->) | ->]; unfold ageSeconds in *; simpl.
    - lra.
    - lra. }
  split; [exact Hbound | split].
  - intros p Hlate Hin; apply Hbound in Hin; unfold ageSeconds in Hin; lra.
  - intros q Hin Hage; apply Hafter; left; exists q.
    split; [exact Hin | split; [lra |]].
    f_equal. unfold ageSeconds in Hage.
    rewrite specOpacity_linear by lra.
    rewrite Hage.
    replace (2 - 2 * period / period) with 0 by (field; lra).
    symmetry; apply Rmax_left; lra.
Qed.

Lemma C4_eviction_after_two_periods_witness :
  let old := {| position := (5, 0, 0); timestamp := 0; opacity := 1 |} in
  let st := {| satellitePosition := (5, 0, 0); trail := [old] |} in
  In {| position := (5, 0, 0); timestamp := 0; opacity := 0 |}
     (trail (intervalTick lagrange "l1" 1 true 120000 st))
  /\ ~ In old (trail (intervalTick lagrange "l1" 1 true 120016 st)).
Proof.
  intros old st; split.
  - apply (proj2 (proj2
             (C4_eviction_after_two_periods lagrange "l1" 1 120000 st)) old).
    + simpl; left; reflexivity.
    + unfold ageSeconds; simpl; lra.
  - apply (proj1 (proj2
             (C4_eviction_after_two_periods lagrange "l1" 1 120016 st)) old).
    simpl; lra.
Defined.

(** ** The trail mesh builder *)

Section BuilderFacts.

(** [length() || 1] is never zero: it is the length when that is not
    zero, and 1 otherwise. *)
Lemma orOne_nonzero (a : R) : Vector3.orOne a <> 0.
Proof.
  unfold Vector3.orOne; destruct (Req_dec_T a 0); [lra | assumption].
Qed.

Lemma orOne_pos (a : R) : 0 <= a -> 0 < Vector3.orOne a.
Proof.
  intros Ha; pose proof (orOne_nonzero a) as Hnz; revert Hnz.
  unfold Vector3.orOne; destruct (Req_dec_T a 0); intros; lra.
Qed.

Lemma length_nonneg (v : Vector3.t) : 0 <= Vector3.length v.
Proof. apply sqrt_pos. Qed.

(** Normalization never divides by zero. *)
Lemma normalize_value (v : Vector3.t) :
  Vector3.normalize v = Some (unitOf v).
Proof.
  unfold Vector3.normalize, Vector3.divideScalar, unitOf.
  destruct (Req_dec_T (Vector3.orOne (Vector3.length v)) 0) as [Hz | _];
    [exfalso; exact (orOne_nonzero _ Hz) | reflexivity].
Qed.

(** The perpendicular is the quarter-turn of the horizontal part of the
    displacement, scaled by a positive factor. *)
Lemma segmentPerpendicular_form (current next : vec3) :
  exists c : R,
    0 < c
    /\ Vector3.x (segmentPerpendicular current next)
       = - (at2 next - at2 current) * c
    /\ Vector3.y (segmentPerpendicular current next) = 0
    /\ Vector3.z (segmentPerpendicular current next)
       = (at0 next - at0 current) * c.
Proof.
  unfold segmentPerpendicular.
  set (d := Vector3.mk (at0 next - at0 current) (at1 next - at1 current)
                       (at2 next - at2 current)).
  set (q := Vector3.mk (- Vector3.z (unitOf d)) 0 (Vector3.x (unitOf d))).
  pose proof (orOne_pos _ (length_nonneg d)) as Hd.
  pose proof (orOne_pos _ (length_nonneg q)) as Hq.
  exists (1 / Vector3.orOne (Vector3.length d)
          * (1 / Vector3.orOne (Vector3.length q))).
  split.
  - apply Rmult_lt_0_compat; apply Rdiv_lt_0_compat; lra.
  - unfold unitOf at 1 2 3; simpl.
    unfold unitOf, d; simpl.
    repeat split; ring.
Qed.

(** A store behind a prefix of known length acts on the rest. *)
Lemma store_past (front rest : list R) (n k : nat) (v : R) :
  n = List.length front ->
  store (front ++ rest) (n + k) v = (front ++ store rest k v)%list.
Proof.
  intros ->; induction front as [| h front IH]; simpl;
    [reflexivity | rewrite IH; reflexivity].
Qed.

(** The six stores of one round fill the six zeros after the prefix. *)
Lemma six_stores (front : list R) (n m : nat) (a0 a1 a2 a3 a4 a5 : R) :
  n = List.length front ->
  store (store (store (store (store (store
    (front ++ repeat 0 (6 + m)) n a0) (n + 1) a1) (n + 2) a2)
    (n + 3) a3) (n + 4) a4) (n + 5) a5
  = (front ++ [a0; a1; a2; a3; a4; a5] ++ repeat 0 m)%list.
Proof.
  intros Hn.
  replace n with (n + 0)%nat at 1 by lia.
  rewrite !(store_past front) by exact Hn.
  reflexivity.
Qed.

Lemma flat_map_length_6 {A : Type} (f : A -> list R) (l : list A) :
  (forall a, List.length (f a) = 6%nat) ->
  List.length (flat_map f l) = (List.length l * 6)%nat.
Proof.
  intros Hsix; induction l as [| a l IH]; simpl; [reflexivity |].
  rewrite length_app, Hsix, IH; reflexivity.
Qed.

Lemma writtenPositions_length (points : list vec3) (lineWidths : list R)
    (n : nat) :
  List.length (writtenPositions points lineWidths n) = (n * 6)%nat.
Proof.
  unfold writtenPositions; rewrite flat_map_length_6, length_seq; auto.
Qed.

Lemma writtenColors_length (colors : list Color) (n : nat) :
  List.length (writtenColors colors n) = (n * 6)%nat.
Proof.
  unfold writtenColors; rewrite flat_map_length_6, length_seq; auto.
Qed.

Lemma writtenPositions_S (points : list vec3) (lineWidths : list R)
    (n : nat) :
  writtenPositions points lineWidths (S n)
  = (writtenPositions points lineWidths n
     ++ segmentPositions (nth n points (0, 0, 0))
                         (nth (n + 1) points (0, 0, 0))
                         (nth n lineWidths 0))%list.
Proof.
  unfold writtenPositions.
  rewrite seq_S, flat_map_app; cbn [flat_map plus];
    rewrite app_nil_r; reflexivity.
Qed.

Lemma writtenColors_S (colors : list Color) (n : nat) :
  writtenColors colors (S n)
  = (writtenColors colors n
     ++ segmentColors (nth n colors (mkColor 0 0 0)))%list.
Proof.
  unfold writtenColors.
  rewrite seq_S, flat_map_app; cbn [flat_map plus];
    rewrite app_nil_r; reflexivity.
Qed.

(** One round of the loop, on buffers whose first [6 i] entries are
    written and whose other entries are still zero. *)
Lemma writeSegment_value
    (points : list vec3) (colors : list Color) (lineWidths : list R)
    (i m : nat) (front frontColors : list R) :
  (i + 1 < List.length points)%nat ->
  (i < List.length colors)%nat ->
  (i < List.length lineWidths)%nat ->
  List.length front = (i * 6)%nat ->
  List.length frontColors = (i * 6)%nat ->
  writeSegment points colors lineWidths i
               (front ++ repeat 0 (6 + m), frontColors ++ repeat 0 (6 + m))
  = Some (front
            ++ segmentPositions (nth i points (0, 0, 0))
                                (nth (i + 1) points (0, 0, 0))
                                (nth i lineWidths 0)
            ++ repeat 0 m,
          frontColors
            ++ segmentColors (nth i colors (mkColor 0 0 0))
            ++ repeat 0 m)%list.
Proof.
  intros Hp Hc Hw Hfront HfrontColors.
  unfold writeSegment.
  rewrite (nth_error_nth' points (0, 0, 0)) by lia.
  rewrite (nth_error_nth' points (0, 0, 0) Hp).
  rewrite (nth_error_nth' lineWidths 0 Hw).
  rewrite (nth_error_nth' colors (mkColor 0 0 0) Hc).
  cbn [bind].
  rewrite normalize_value; cbn [bind].
  rewrite normalize_value; cbn [bind].
  rewrite !six_stores by (symmetry; assumption).
  reflexivity.
Qed.

Lemma writeSegments_app
    (points : list vec3) (colors : list Color) (lineWidths : list R)
    (ixs ixs' : list nat) (buffers : list R * list R) :
  writeSegments points colors lineWidths (ixs ++ ixs') buffers
  = bind (writeSegments points colors lineWidths ixs buffers)
         (writeSegments points colors lineWidths ixs').
Proof.
  revert buffers; induction ixs as [| i ixs IH]; intros buffers; simpl;
    [reflexivity |].
  destruct (writeSegment points colors lineWidths i buffers) as [b |];
    simpl; [apply IH | reflexivity].
Qed.

(** The loop invariant, in closed form: after [n] rounds the buffers
    hold the numbers of the first [n] segments, and zeros behind. *)
Lemma writeSegments_closed
    (points : list vec3) (colors : list Color) (lineWidths : list R)
    (n : nat) :
  List.length colors = List.length points ->
  List.length lineWidths = List.length points ->
  (n <= List.length points - 1)%nat ->
  writeSegments points colors lineWidths (seq 0 n)
                (Float32Array (List.length points * 6),
                 Float32Array (List.length points * 6))
  = Some (writtenPositions points lineWidths n
            ++ repeat 0 (6 * (List.length points - n)),
          writtenColors colors n
            ++ repeat 0 (6 * (List.length points - n)))%list.
Proof.
  intros Hc Hw; induction n as [| n IH]; intros Hn.
  - simpl; unfold Float32Array.
    replace (List.length points * 6)%nat
      with (6 * (List.length points - 0))%nat by lia.
    reflexivity.
  - rewrite seq_S, writeSegments_app, IH by lia; cbn [bind plus].
    cbn [writeSegments bind].
    replace (6 * (List.length points - n))%nat
      with (6 + 6 * (List.length points - S n))%nat by lia.
    rewrite writeSegment_value;
      try lia; try apply writtenPositions_length;
      try apply writtenColors_length.
    cbn [bind].
    rewrite writtenPositions_S, writtenColors_S, <- !app_assoc.
    reflexivity.
Qed.

(** The geometry in closed form, for parallel arrays of one length. *)
Lemma generateTrailGeometry_closed
    (points : list vec3) (colors : list Color) (lineWidths : list R) :
  List.length colors = List.length points ->
  List.length lineWidths = List.length points ->
  let n := (List.length points - 1)%nat in
  generateTrailGeometry points colors lineWidths
  = Some {| positions :=
              writtenPositions points lineWidths n
              ++ repeat 0 (6 * (List.length points - n));
            vertexColors :=
              writtenColors colors n
              ++ repeat 0 (6 * (List.length points - n));
            indices := flat_map segmentIndices (seq 0 n) |}.
Proof.
  intros Hc Hw n; unfold generateTrailGeometry.
  rewrite writeSegments_closed by (auto; lia).
  reflexivity.
Qed.

End BuilderFacts.

Section GeometryFacts.

Variables (points : list vec3) (colors : list Color) (lineWidths : list R).
Hypothesis colors_length : List.length colors = List.length points.
Hypothesis lineWidths_length : List.length lineWidths = List.length points.

(** Behind what was written, a buffer reads zero. *)
Lemma nth_behind (written : list R) (m j : nat) :
  (List.length written <= j)%nat -> nth j (written ++ repeat 0 m) 0 = 0.
Proof.
  intros Hj; rewrite app_nth2 by lia; apply nth_repeat.
Qed.

Lemma nth_writtenPositions (n i k : nat) :
  (i < n)%nat -> (k < 6)%nat ->
  nth (i * 6 + k) (writtenPositions points lineWidths n) 0
  = nth k (segmentPositions (nth i points (0, 0, 0))
                            (nth (i + 1) points (0, 0, 0))
                            (nth i lineWidths 0)) 0.
Proof.
  intros Hi Hk; induction n as [| n IH]; [lia |].
  rewrite writtenPositions_S.
  destruct (Nat.eq_dec i n) as [-> | Hne].
  - rewrite app_nth2; rewrite writtenPositions_length; [| lia].
    replace (n * 6 + k - n * 6)%nat with k by lia; reflexivity.
  - rewrite app_nth1; [apply IH; lia |].
    rewrite writtenPositions_length; lia.
Qed.

(** The two vertices of sample [i], when a segment starts there. *)
Lemma segment_vertices (geometry : BufferGeometry) (i : nat) :
  generateTrailGeometry points colors lineWidths = Some geometry ->
  (i + 1 < List.length points)%nat ->
  let current := nth i points (0, 0, 0) in
  let perpendicular :=
    segmentPerpendicular current (nth (i + 1) points (0, 0, 0)) in
  let width := nth i lineWidths 0 * (1 / 10) in
  vertex geometry (2 * i)
  = (at0 current + Vector3.x perpendicular * width,
     at1 current,
     at2 current + Vector3.z perpendicular * width)
  /\ vertex geometry (2 * i + 1)
     = (at0 current - Vector3.x perpendicular * width,
        at1 current,
        at2 current - Vector3.z perpendicular * width).
Proof.
  intros Hgen Hi current perpendicular width.
  rewrite generateTrailGeometry_closed in Hgen by assumption.
  injection Hgen as <-.
  assert (Hread : forall k, (k < 6)%nat ->
            nth (i * 6 + k)
                (writtenPositions points lineWidths
                                  (List.length points - 1)
                 ++ repeat 0 (6 * (List.length points
                                   - (List.length points - 1)))) 0
            = nth k (segmentPositions current
                                      (nth (i + 1) points (0, 0, 0))
                                      (nth i lineWidths 0)) 0).
  { intros k Hk; rewrite app_nth1.
    - apply nth_writtenPositions; lia.
    - rewrite writtenPositions_length; lia. }
  unfold vertex; cbn [positions].
  replace (3 * (2 * i))%nat with (i * 6 + 0)%nat by lia.
  replace (3 * (2 * i) + 1)%nat with (i * 6 + 1)%nat by lia.
  replace (3 * (2 * i) + 2)%nat with (i * 6 + 2)%nat by lia.
  replace (3 * (2 * i + 1))%nat with (i * 6 + 3)%nat by lia.
  replace (3 * (2 * i + 1) + 1)%nat with (i * 6 + 4)%nat by lia.
  replace (3 * (2 * i + 1) + 2)%nat with (i * 6 + 5)%nat by lia.
  replace (i * 6 + 0 + 1)%nat with (i * 6 + 1)%nat by lia.
  replace (i * 6 + 0 + 2)%nat with (i * 6 + 2)%nat by lia.
  replace (i * 6 + 3 + 1)%nat with (i * 6 + 4)%nat by lia.
  replace (i * 6 + 3 + 2)%nat with (i * 6 + 5)%nat by lia.
  rewrite !Hread by lia.
  split; reflexivity.
Qed.

(** The vertices of the last sample are never written. *)
Lemma last_vertices (geometry : BufferGeometry) (k : nat) :
  generateTrailGeometry points colors lineWidths = Some geometry ->
  (2 * (List.length points - 1) <= k)%nat ->
  vertex geometry k = (0, 0, 0) /\ vertexColor geometry k = (0, 0, 0).
Proof.
  intros Hgen Hk.
  rewrite generateTrailGeometry_closed in Hgen by assumption.
  injection Hgen as <-.
  unfold vertex, vertexColor; cbn [positions vertexColors].
  rewrite !nth_behind;
    try (rewrite writtenPositions_length; lia);
    try (rewrite writtenColors_length; lia).
  split; reflexivity.
Qed.

End GeometryFacts.

(** The index buffer read as triangles: two per segment. *)
Lemma triangles_of_segments (ixs : list nat) :
  triangles (flat_map segmentIndices ixs)
  = flat_map (fun i => [((i * 2)%nat, (i * 2 + 1)%nat, (i * 2 + 2)%nat);
                        ((i * 2 + 2)%nat, (i * 2 + 1)%nat, (i * 2 + 3)%nat)])
             ixs.
Proof.
  induction ixs as [| i ixs IH]; [reflexivity |].
  cbn [flat_map]; unfold segmentIndices at 1; cbn [app triangles].
  rewrite IH; reflexivity.
Qed.

(** C10.  For every sample list of length N >= 2 (with its parallel
    colour and width arrays), the builder stores positions and colours
    for the segments that start at samples 0 .. N-2 only; the six entries
    of each buffer that belong to the last sample keep their initial
    zeros, so the vertices 2N-2 and 2N-1 are the origin with colour
    (0,0,0).  The index buffer ends with the six indices 2N-4, 2N-3,
    2N-2, 2N-2, 2N-3, 2N-1 of the final segment, which name those two
    vertices: the last two triangles of the ribbon reach the world origin
    wherever the samples are. *)
Theorem C10_last_sample_never_written
    (points : list vec3) (colors : list Color) (lineWidths : list R) :
  let N := List.length points in
  (2 <= N)%nat ->
  List.length colors = N ->
  List.length lineWidths = N ->
  exists geometry : BufferGeometry,
    generateTrailGeometry points colors lineWidths = Some geometry
    /\ positions geometry
       = writtenPositions points lineWidths (N - 1) ++ repeat 0 6
    /\ vertexColors geometry = writtenColors colors (N - 1) ++ repeat 0 6
    /\ vertex geometry (2 * N - 2) = (0, 0, 0)
    /\ vertex geometry (2 * N - 1) = (0, 0, 0)
    /\ vertexColor geometry (2 * N - 2) = (0, 0, 0)
    /\ vertexColor geometry (2 * N - 1) = (0, 0, 0)
    /\ (exists front : list nat,
          indices geometry
          = front ++ [2 * N - 4; 2 * N - 3; 2 * N - 2;
                      2 * N - 2; 2 * N - 3; 2 * N - 1]%nat)
    /\ (exists front : list (nat * nat * nat),
          triangles (indices geometry)
          = front ++ [((2 * N - 4)%nat, (2 * N - 3)%nat, (2 * N - 2)%nat);
                      ((2 * N - 2)%nat, (2 * N - 3)%nat, (2 * N - 1)%nat)]).
Proof.
  intros N HN Hc Hw.
  pose proof (generateTrailGeometry_closed points colors lineWidths Hc Hw)
    as Hgen; cbv zeta in Hgen; fold N in Hgen.
  replace (6 * (N - (N - 1)))%nat with 6%nat in Hgen by lia.
  eexists; split; [exact Hgen |].
  split; [reflexivity | split; [reflexivity |]].
  pose proof (last_vertices points colors lineWidths Hc Hw _ (2 * N - 2)
                            Hgen ltac:(fold N; lia)) as [Hv1 Hc1].
  pose proof (last_vertices points colors lineWidths Hc Hw _ (2 * N - 1)
                            Hgen ltac:(fold N; lia)) as [Hv2 Hc2].
  do 4 (split; [assumption |]).
  cbn [indices].
  replace (N - 1)%nat with (S (N - 2)) by lia.
  rewrite seq_S; cbn [plus].
  assert (Hbase : ((N - 2) * 2 = 2 * N - 4)%nat) by lia.
  assert (H1 : (2 * N - 4 + 1 = 2 * N - 3)%nat) by lia.
  assert (H2 : (2 * N - 4 + 2 = 2 * N - 2)%nat) by lia.
  assert (H3 : (2 * N - 4 + 3 = 2 * N - 1)%nat) by lia.
  split.
  - exists (flat_map segmentIndices (seq 0 (N - 2))).
    rewrite flat_map_app; cbn [flat_map]; rewrite app_nil_r.
    unfold segmentIndices; cbv zeta; rewrite Hbase, H1, H2, H3.
    reflexivity.
  - exists (flat_map
              (fun i => [((i * 2)%nat, (i * 2 + 1)%nat, (i * 2 + 2)%nat);
                         ((i * 2 + 2)%nat, (i * 2 + 1)%nat, (i * 2 + 3)%nat)])
              (seq 0 (N - 2))).
    rewrite triangles_of_segments, flat_map_app; cbn [flat_map].
    rewrite app_nil_r, Hbase, H1, H2, H3; reflexivity.
Qed.

Lemma C10_last_sample_never_written_witness :
  exists geometry : BufferGeometry,
    generateTrailGeometry [(1, 0, 0); (2, 0, 0); (3, 0, 1)]
                          [mkColor 1 1 1; mkColor 1 1 1; mkColor 1 1 1]
                          [1; 1; 1]
    = Some geometry
    /\ vertex geometry 4 = (0, 0, 0)
    /\ vertex geometry 5 = (0, 0, 0)
    /\ triangles (indices geometry)
       = [(0, 1, 2); (2, 1, 3); (2, 3, 4); (4, 3, 5)]%nat.
Proof.
  destruct (C10_last_sample_never_written
              [(1, 0, 0); (2, 0, 0); (3, 0, 1)]
              [mkColor 1 1 1; mkColor 1 1 1; mkColor 1 1 1]
              [1; 1; 1])
    as (geometry & Hgen & _ & _ & Hv4 & Hv5 & _ & _ & _ & _);
    [simpl; lia | reflexivity | reflexivity |].
  exists geometry; repeat split; try assumption.
  rewrite generateTrailGeometry_closed in Hgen by reflexivity.
  injection Hgen as <-; reflexivity.
Defined.

(** C9.  For every trail and base colour, the builder completes: no
    normalization divides by zero, so every number it stores is the
    result of finite arithmetic (in the model, [None] is the only way to a
    number that is not finite).  Both buffers hold six numbers per sample.
    Where two consecutive samples are at the same position, the
    zero-length direction normalizes to the zero vector and the segment
    is clamped to zero width: both vertices of the sample are the
    sample's own position. *)
Theorem C9_degenerate_segments_stay_finite
    (color : Color) (trail : list TrailPoint) :
  exists geometry : BufferGeometry,
    trailGeometry color trail = Some geometry
    /\ List.length (positions geometry) = (List.length trail * 6)%nat
    /\ List.length (vertexColors geometry) = (List.length trail * 6)%nat
    /\ forall (i : nat) (here next : TrailPoint),
         nth_error trail i = Some here ->
         nth_error trail (i + 1) = Some next ->
         position here = position next ->
         vertex geometry (2 * i) = position here
         /\ vertex geometry (2 * i + 1) = position here.
Proof.
  unfold trailGeometry.
  set (points := map position trail).
  set (colors := map (fun point => colorMultiplyScalar color (opacity point))
                     trail).
  set (lineWidths := map opacity trail).
  assert (Hp : List.length points = List.length trail)
    by apply length_map.
  assert (Hc : List.length colors = List.length points)
    by (unfold colors, points; rewrite !length_map; reflexivity).
  assert (Hw : List.length lineWidths = List.length points)
    by (unfold lineWidths, points; rewrite !length_map; reflexivity).
  pose proof (generateTrailGeometry_closed points colors lineWidths Hc Hw)
    as Hgen; cbv zeta in Hgen.
  eexists; split; [exact Hgen |]; cbn [positions vertexColors].
  split; [| split].
  - rewrite length_app, writtenPositions_length, repeat_length; lia.
  - rewrite length_app, writtenColors_length, repeat_length; lia.
  - intros i here next Hhere Hnext Hsame.
    assert (Hi : (i + 1 < List.length points)%nat).
    { rewrite Hp; apply nth_error_Some; congruence. }
    pose proof (segment_vertices points colors lineWidths Hc Hw _ i Hgen Hi)
      as Hv; cbv zeta in Hv.
    assert (Hcur : nth i points (0, 0, 0) = position here).
    { apply nth_error_nth; unfold points.
      apply map_nth_error; exact Hhere. }
    assert (Hnxt : nth (i + 1) points (0, 0, 0) = position here).
    { rewrite Hsame; apply nth_error_nth; unfold points.
      apply map_nth_error; exact Hnext. }
    rewrite Hcur, Hnxt in Hv.
    destruct (segmentPerpendicular_form (position here) (position here))
      as (c & _ & Hx & _ & Hz).
    destruct Hv as [Hleft Hright]; rewrite Hleft, Hright, Hx, Hz.
    destruct (position here) as [[x0 y0] z0]; unfold at0, at1, at2; simpl.
    split; f_equal; try f_equal; ring.
Qed.

Lemma C9_degenerate_segments_stay_finite_witness :
  let stay :=
    [{| position := (1, 2, 3); timestamp := 0; opacity := 1 |};
     {| position := (1, 2, 3); timestamp := 16; opacity := 1 |}] in
  exists geometry : BufferGeometry,
    trailGeometry (mkColor 1 1 1) stay = Some geometry
    /\ vertex geometry 0 = (1, 2, 3)
    /\ vertex geometry 1 = (1, 2, 3).
Proof.
  intros stay.
  destruct (C9_degenerate_segments_stay_finite (mkColor 1 1 1) stay)
    as (geometry & Hgen & _ & _ & Hflat).
  exists geometry; split; [exact Hgen |].
  apply (Hflat 0%nat
               {| position := (1, 2, 3); timestamp := 0; opacity := 1 |}
               {| position := (1, 2, 3); timestamp := 16; opacity := 1 |});
    reflexivity.
Defined.

Section RoundTrip.

Variables (p0 p1 p2 : vec3) (c0 c1 c2 : Color).

(** The geometry of three samples, with its index buffer spelled out. *)
Lemma three_samples_geometry :
  exists geometry : BufferGeometry,
    generateTrailGeometry [p0; p1; p2] [c0; c1; c2] [1; 1; 1]
    = Some geometry
    /\ List.length (positions geometry) = 18%nat
    /\ List.length (vertexColors geometry) = 18%nat
    /\ indices geometry = [0; 1; 2; 2; 1; 3; 2; 3; 4; 4; 3; 5]%nat.
Proof.
  rewrite generateTrailGeometry_closed by reflexivity.
  eexists; split; [reflexivity |].
  cbn [positions vertexColors indices].
  repeat split.
Qed.

(** The horizontal parts of two parallel displacements, neither of them
    zero, have a dot product that is not zero. *)
Lemma parallel_dot_nonzero (a b e f : R) :
  b * e - a * f = 0 -> 0 < a * a + b * b -> 0 < e * e + f * f ->
  a * e + b * f <> 0.
Proof.
  intros Hpar Hd He Hdot.
  assert (Hsq : (a * e + b * f) * (a * e + b * f)
                + (b * e - a * f) * (b * e - a * f)
                = (a * a + b * b) * (e * e + f * f)) by ring.
  rewrite Hpar, Hdot in Hsq.
  pose proof (Rmult_lt_0_compat _ _ Hd He); lra.
Qed.

Lemma squares_pos (a b : R) : a <> 0 \/ b <> 0 -> 0 < a * a + b * b.
Proof. intros [H | H]; nra. Qed.

(** The two triangles of the first segment of three collinear, pairwise
    distinct samples that are not one above the other. *)
Lemma first_segment_triangles (geometry : BufferGeometry) :
  generateTrailGeometry [p0; p1; p2] [c0; c1; c2] [1; 1; 1]
    = Some geometry ->
  collinear p0 p1 p2 ->
  p0 <> p1 -> p1 <> p2 ->
  at0 p0 <> at0 p1 \/ at2 p0 <> at2 p1 ->
  ~ triangleZeroArea geometry (0, 1, 2)%nat
  /\ ~ triangleZeroArea geometry (2, 1, 3)%nat.
Proof.
  intros Hgen Hline H01 H12 Hflat.
  pose proof (segment_vertices [p0; p1; p2] [c0; c1; c2] [1; 1; 1]
                               eq_refl eq_refl
                               _ 0 Hgen ltac:(simpl; lia)) as [Hv0 Hv1].
  pose proof (segment_vertices [p0; p1; p2] [c0; c1; c2] [1; 1; 1]
                               eq_refl eq_refl
                               _ 1 Hgen ltac:(simpl; lia)) as [Hv2 Hv3].
  cbn [nth plus mult] in Hv0, Hv1, Hv2, Hv3.
  destruct (segmentPerpendicular_form p0 p1) as (k0 & Hk0 & Hx0 & _ & Hz0).
  destruct (segmentPerpendicular_form p1 p2) as (k1 & Hk1 & Hx1 & _ & Hz1).
  rewrite Hx0, Hz0 in Hv0, Hv1; rewrite Hx1, Hz1 in Hv2, Hv3.
  clear Hx0 Hz0 Hx1 Hz1 Hgen.
  unfold triangleZeroArea, zeroArea.
  rewrite Hv0, Hv1, Hv2, Hv3; clear Hv0 Hv1 Hv2 Hv3.
  destruct p0 as [[x0 y0] z0], p1 as [[x1 y1] z1], p2 as [[x2 y2] z2].
  unfold collinear, cross, vsub, at0, at1, at2 in *; simpl in *.
  injection Hline as Hlx Hly Hlz.
  set (dx := x1 - x0) in *; set (dz := z1 - z0) in *.
  set (ex := x2 - x1) in *; set (ez := z2 - z1) in *.
  assert (Hd : 0 < dx * dx + dz * dz).
  { apply squares_pos; unfold dx, dz; destruct Hflat; [left | right]; lra. }
  assert (Hpar : dz * ex - dx * ez = 0)
    by (unfold dx, dz, ex, ez in *; lra).
  assert (He : 0 < ex * ex + ez * ez).
  { apply squares_pos.
    destruct (Req_dec_T ex 0) as [Hex | Hex]; [| left; exact Hex].
    destruct (Req_dec_T ez 0) as [Hez | Hez]; [| right; exact Hez].
    exfalso.
    assert (Hey : y2 - y1 <> 0).
    { intros Hey; apply H12; unfold ex, ez in *; f_equal; [f_equal |]; lra. }
    assert (Hdz : dz * (y2 - y1) = 0) by (unfold dx, dz, ex, ez in *; nra).
    assert (Hdx : dx * (y2 - y1) = 0) by (unfold dx, dz, ex, ez in *; nra).
    apply Rmult_integral in Hdz, Hdx.
    destruct Hdz as [Hdz | ?]; [| contradiction].
    destruct Hdx as [Hdx | ?]; [| contradiction].
    rewrite Hdz, Hdx in Hd; lra. }
  pose proof (parallel_dot_nonzero dx dz ex ez Hpar Hd He) as Hdot.
  split; intros Hzero; injection Hzero as _ Hy _.
  - match type of Hy with
    | ?lhs = 0 =>
        assert (Hval : lhs = - (2 / 10) * k0 * (dx * dx + dz * dz)
                             - (2 / 100) * k0 * k1 * (dz * ex - dx * ez))
          by (unfold dx, dz, ex, ez; field)
    end.
    rewrite Hy, Hpar in Hval.
    pose proof (Rmult_lt_0_compat _ _ Hk0 Hd); lra.
  - match type of Hy with
    | ?lhs = 0 =>
        assert (Hval : lhs = - (2 / 10) * k1 * (dx * ex + dz * ez)
                             + (2 / 100) * k0 * k1 * (dz * ex - dx * ez))
          by (unfold dx, dz, ex, ez; field)
    end.
    rewrite Hy, Hpar in Hval.
    assert (Hprod : k1 * (dx * ex + dz * ez) = 0) by lra.
    apply Rmult_integral in Hprod; destruct Hprod; [lra | contradiction].
Qed.

End RoundTrip.

(** Three samples one above the other: the perpendicular of a vertical
    segment is the zero vector, the two vertices of the first sample
    coincide, and the first triangle has zero area. *)
Lemma vertical_samples_flat_triangle :
  let white := mkColor 1 1 1 in
  exists geometry : BufferGeometry,
    generateTrailGeometry [(0, 0, 0); (0, 1, 0); (0, 2, 0)]
                          [white; white; white] [1; 1; 1]
    = Some geometry
    /\ In (0, 1, 2)%nat (triangles (indices geometry))
    /\ triangleZeroArea geometry (0, 1, 2)%nat.
Proof.
  intros white.
  destruct (three_samples_geometry (0, 0, 0) (0, 1, 0) (0, 2, 0)
                                   white white white)
    as (geometry & Hgen & _ & _ & Hidx).
  exists geometry; split; [exact Hgen | split].
  - rewrite Hidx; simpl; tauto.
  - pose proof (segment_vertices
                  [(0, 0, 0); (0, 1, 0); (0, 2, 0)] [white; white; white]
                  [1; 1; 1] eq_refl eq_refl geometry 0 Hgen
                  ltac:(simpl; lia)) as [Hv0 Hv1].
    cbn [nth plus mult] in Hv0, Hv1.
    destruct (segmentPerpendicular_form (0, 0, 0) (0, 1, 0))
      as (k & _ & Hx & _ & Hz).
    rewrite Hx, Hz in Hv0, Hv1.
    unfold triangleZeroArea, zeroArea; rewrite Hv0, Hv1.
    destruct (vertex geometry 2) as [[x2 y2] z2].
    unfold cross, vsub, at0, at1, at2; simpl.
    f_equal; [f_equal |]; ring.
Qed.

(** Three samples on the x axis, one unit apart: collinear, pairwise
    distinct, not one above the other.  The builder emits twelve indices,
    not six, and its last triangle (4,3,5) has zero area, because the
    vertices 4 and 5 are both the origin.  So the round trip does not
    hold as it is worded.  Three samples one above the other, at heights
    0, 1 and 2, give a first triangle of zero area as well. *)
Lemma C8_round_trip_as_worded_fails :
  let p0 : vec3 := (0, 0, 0) in
  let p1 : vec3 := (1, 0, 0) in
  let p2 : vec3 := (2, 0, 0) in
  let white := mkColor 1 1 1 in
  (collinear p0 p1 p2 /\ p0 <> p1 /\ p1 <> p2 /\ p0 <> p2)
  /\ (exists geometry : BufferGeometry,
        generateTrailGeometry [p0; p1; p2] [white; white; white] [1; 1; 1]
        = Some geometry
        /\ List.length (indices geometry) = 12%nat
        /\ In (4, 3, 5)%nat (triangles (indices geometry))
        /\ triangleZeroArea geometry (4, 3, 5)%nat)
  /\ (collinear (0, 0, 0) (0, 1, 0) (0, 2, 0)
      /\ exists geometry : BufferGeometry,
           generateTrailGeometry [(0, 0, 0); (0, 1, 0); (0, 2, 0)]
                                 [white; white; white] [1; 1; 1]
           = Some geometry
           /\ In (0, 1, 2)%nat (triangles (indices geometry))
           /\ triangleZeroArea geometry (0, 1, 2)%nat)
  /\ ~ meshRoundTripAsWorded.
Proof.
  intros p0 p1 p2 white.
  assert (Hinput : collinear p0 p1 p2 /\ p0 <> p1 /\ p1 <> p2 /\ p0 <> p2).
  { unfold collinear, cross, vsub, at0, at1, at2, p0, p1, p2; simpl.
    split; [f_equal; [f_equal |]; ring |].
    repeat split; intros Heq; injection Heq; lra. }
  assert (Hflat : forall geometry : BufferGeometry,
            generateTrailGeometry [p0; p1; p2] [white; white; white] [1; 1; 1]
            = Some geometry ->
            In (4, 3, 5)%nat (triangles (indices geometry))
            /\ triangleZeroArea geometry (4, 3, 5)%nat).
  { intros geometry Hgen.
    destruct (last_vertices [p0; p1; p2] [white; white; white] [1; 1; 1]
                            eq_refl eq_refl geometry 4 Hgen
                            ltac:(simpl; lia)) as [Hv4 _].
    destruct (last_vertices [p0; p1; p2] [white; white; white] [1; 1; 1]
                            eq_refl eq_refl geometry 5 Hgen
                            ltac:(simpl; lia)) as [Hv5 _].
    split.
    - rewrite generateTrailGeometry_closed in Hgen by reflexivity.
      injection Hgen as <-; simpl; tauto.
    - unfold triangleZeroArea, zeroArea; rewrite Hv4, Hv5.
      destruct (vertex geometry 3) as [[x3 y3] z3].
      unfold cross, vsub, at0, at1, at2; simpl.
      f_equal; [f_equal |]; ring. }
  split; [exact Hinput | split; [| split]].
  - destruct (three_samples_geometry p0 p1 p2 white white white)
      as (geometry & Hgen & _ & _ & Hidx).
    exists geometry; split; [exact Hgen | split].
    + rewrite Hidx; reflexivity.
    + apply Hflat; exact Hgen.
  - split; [| exact vertical_samples_flat_triangle].
    unfold collinear, cross, vsub, at0, at1, at2; simpl.
    f_equal; [f_equal |]; ring.
  - intros Hworded.
    destruct Hinput as (Hline & H01 & H12 & H02).
    destruct (Hworded p0 p1 p2 white white white Hline H01 H12 H02)
      as (geometry & Hgen & _ & _ & Harea).
    destruct (Hflat geometry Hgen) as [Hin Hzero].
    exact (Harea _ Hin Hzero).
Qed.

(** C8.  Given three samples of opacity 1.0, the builder emits six
    vertices (eighteen numbers in each buffer) and twelve indices: six
    per segment, forming exactly two triangles for each of the two
    segments.  When the samples are collinear, pairwise distinct and not
    one above the other, the two triangles of the first segment have an
    area that is not zero. *)
Theorem C8_three_samples_round_trip
    (p0 p1 p2 : vec3) (c0 c1 c2 : Color) :
  exists geometry : BufferGeometry,
    generateTrailGeometry [p0; p1; p2] [c0; c1; c2] [1; 1; 1] = Some geometry
    /\ List.length (positions geometry) = (6 * 3)%nat
    /\ List.length (vertexColors geometry) = (6 * 3)%nat
    /\ List.length (indices geometry) = (6 * 2)%nat
    /\ triangles (indices geometry)
       = [(0, 1, 2); (2, 1, 3); (2, 3, 4); (4, 3, 5)]%nat
    /\ (collinear p0 p1 p2 ->
        p0 <> p1 -> p1 <> p2 -> p0 <> p2 ->
        at0 p0 <> at0 p1 \/ at2 p0 <> at2 p1 ->
        ~ triangleZeroArea geometry (0, 1, 2)%nat
        /\ ~ triangleZeroArea geometry (2, 1, 3)%nat).
Proof.
  destruct (three_samples_geometry p0 p1 p2 c0 c1 c2)
    as (geometry & Hgen & Hpos & Hcol & Hidx).
  exists geometry; split; [exact Hgen |].
  split; [exact Hpos | split; [exact Hcol |]].
  rewrite Hidx; split; [reflexivity | split; [reflexivity |]].
  intros Hline H01 H12 _ Hflat.
  exact (first_segment_triangles p0 p1 p2 c0 c1 c2 geometry Hgen
                                 Hline H01 H12 Hflat).
Qed.

Lemma C8_three_samples_round_trip_witness :
  exists geometry : BufferGeometry,
    generateTrailGeometry [(0, 0, 0); (1, 0, 0); (2, 0, 0)]
                          [mkColor 1 1 1; mkColor 1 1 1; mkColor 1 1 1]
                          [1; 1; 1]
    = Some geometry
    /\ List.length (indices geometry) = 12%nat
    /\ ~ triangleZeroArea geometry (0, 1, 2)%nat
    /\ ~ triangleZeroArea geometry (2, 1, 3)%nat.
Proof.
  destruct (C8_three_samples_round_trip
              (0, 0, 0) (1, 0, 0) (2, 0, 0)
              (mkColor 1 1 1) (mkColor 1 1 1) (mkColor 1 1 1))
    as (geometry & Hgen & _ & _ & Hidx & _ & Harea).
  exists geometry; split; [exact Hgen | split; [exact Hidx |]].
  apply Harea.
  - unfold collinear, cross, vsub, at0, at1, at2; simpl.
    f_equal; [f_equal |]; ring.
  - intros Heq; injection Heq; lra.
  - intros Heq; injection Heq; lra.
  - intros Heq; injection Heq; lra.
  - left; unfold at0; simpl; lra.
Defined.

(** * Further properties of the source *)

(** ** Orbit periods *)

(** X1.  The period table never yields zero: whatever the selector, the
    period is one of 20, 30, 40, 50, 60 and 100 seconds, so the division
    by the period in the opacity formula is always by a number of at
    least 20. *)
Theorem X1_period_range (type : OrbitType) (orbit : string) :
  In (calculateOrbitPeriod type orbit) [20; 30; 40; 50; 60; 100]
  /\ 20 <= calculateOrbitPeriod type orbit <= 100.
Proof.
  pose proof (calculateOrbitPeriod_values type orbit) as Hin.
  split; [exact Hin |].
  simpl in Hin.
  repeat (destruct Hin as [<- | Hin]; [lra |]); contradiction.
Qed.

(** X2.  Identifiers the period table does not name get the default of
    their family: every ["lagrange"] orbit has 60 seconds; an unnamed
    ["earth"] orbit 40; an unnamed ["moon"] orbit 30; and the orbit
    type ['none'] 40. *)
Theorem X2_period_defaults (orbit : string) :
  calculateOrbitPeriod lagrange orbit = 60
  /\ (~ In orbit (orbitOptions earth) ->
      calculateOrbitPeriod earth orbit = 40)
  /\ (~ In orbit (orbitOptions moon) ->
      calculateOrbitPeriod moon orbit = 30)
  /\ calculateOrbitPeriod none orbit = 40.
Proof.
  split; [reflexivity | split; [| split; [| reflexivity]]].
  - unfold orbitOptions, calculateOrbitPeriod; intros H.
    repeat (apply eqb_other in H; destruct H as [-> H]); reflexivity.
  - unfold orbitOptions, calculateOrbitPeriod; intros H.
    repeat (apply eqb_other in H; destruct H as [-> H]); reflexivity.
Qed.

Lemma X2_period_defaults_witness :
  calculateOrbitPeriod earth "leo" = 40
  /\ calculateOrbitPeriod moon "nrho" = 30.
Proof.
  pose proof (X2_period_defaults "leo") as (_ & He & _ & _).
  pose proof (X2_period_defaults "nrho") as (_ & _ & Hm & _).
  split; [apply He | apply Hm]; apply not_in_by_eqb; reflexivity.
Defined.

(** ** The position function *)

(** Every sine and cosine of the goal is between -1 and 1. *)
Ltac bound_trig :=
  repeat match goal with
         | |- context [cos ?a] =>
             lazymatch goal with
             | _ : -1 <= cos a <= 1 |- _ => fail
             | _ => pose proof (COS_bound a)
             end
         | |- context [sin ?a] =>
             lazymatch goal with
             | _ : -1 <= sin a <= 1 |- _ => fail
             | _ => pose proof (SIN_bound a)
             end
         end.

Lemma lagrange_within_scene (orbit : string) (angle : R) :
  let p := lagrangePosition orbit angle in
  (-13 <= at0 p <= 13) /\ (-2 <= at1 p <= 2) /\ (-13 <= at2 p <= 13).
Proof.
  unfold lagrangePosition.
  repeat match goal with
         | |- context [if ?c then _ else _] => destruct c
         end;
    cbv zeta; unfold at0, at1, at2; cbn [fst snd]; bound_trig;
    repeat split; lra.
Qed.

Lemma earth_within_scene (orbit : string) (angle : R) :
  let p := earthPosition orbit angle in
  (-13 <= at0 p <= 13) /\ (-2 <= at1 p <= 2) /\ (-13 <= at2 p <= 13).
Proof.
  unfold earthPosition.
  repeat match goal with
         | |- context [if ?c then _ else _] => destruct c
         end;
    cbv zeta; unfold at0, at1, at2; cbn [fst snd]; bound_trig;
    repeat split; lra.
Qed.

Lemma moon_within_scene (orbit : string) (angle : R) :
  let p := moonFamilyPosition orbit angle in
  (-13 <= at0 p <= 13) /\ (-2 <= at1 p <= 2) /\ (-13 <= at2 p <= 13).
Proof.
  unfold moonFamilyPosition.
  repeat match goal with
         | |- context [if ?c then _ else _] => destruct c
         end;
    cbv zeta; unfold at0, at1, at2; cbn [fst snd]; bound_trig;
    repeat split; nra.
Qed.

(** X3.  Whatever the selector, the time and the speed, the satellite
    stays inside the box |x| <= 13, |y| <= 2, |z| <= 13 around the
    Earth. *)
Theorem X3_position_within_scene
    (type : OrbitType) (orbit : string) (currentTime simulationSpeed : R) :
  let p := calculateNewPosition type orbit currentTime simulationSpeed in
  (-13 <= at0 p <= 13) /\ (-2 <= at1 p <= 2) /\ (-13 <= at2 p <= 13).
Proof.
  unfold calculateNewPosition; destruct type.
  - apply lagrange_within_scene.
  - apply earth_within_scene.
  - apply moon_within_scene.
  - unfold at0, at1, at2; simpl; lra.
Qed.

Lemma cos_shift (k : nat) (x y : R) :
  x = y + 2 * INR k * PI -> cos x = cos y.
Proof. intros ->; apply cos_period. Qed.

Lemma sin_shift (k : nat) (x y : R) :
  x = y + 2 * INR k * PI -> sin x = sin y.
Proof. intros ->; apply sin_period. Qed.

(** One full turn of the phase. *)
Lemma phase_after_full_turn (t s : R) :
  s <> 0 ->
  (t + 2 * PI / (BASE_ORBITAL_SPEED * s)) * BASE_ORBITAL_SPEED * s
  = t * BASE_ORBITAL_SPEED * s + 2 * PI.
Proof. intros Hs; unfold BASE_ORBITAL_SPEED; field; exact Hs. Qed.

(** Rewrites the sines and cosines of [a + 2 PI], of its multiples by 2,
    3 and 5 and of its shifts by a sixth of a turn. *)
Ltac full_turn a :=
  rewrite ?(cos_shift 1 (a + 2 * PI) a), ?(sin_shift 1 (a + 2 * PI) a),
    ?(cos_shift 2 ((a + 2 * PI) * 2) (a * 2)),
    ?(sin_shift 2 ((a + 2 * PI) * 2) (a * 2)),
    ?(cos_shift 3 ((a + 2 * PI) * 3) (a * 3)),
    ?(sin_shift 3 ((a + 2 * PI) * 3) (a * 3)),
    ?(cos_shift 5 ((a + 2 * PI) * 5) (a * 5)),
    ?(sin_shift 5 ((a + 2 * PI) * 5) (a * 5)),
    ?(cos_shift 1 (a + 2 * PI + PI / 3) (a + PI / 3)),
    ?(sin_shift 1 (a + 2 * PI + PI / 3) (a + PI / 3)),
    ?(cos_shift 1 (a + 2 * PI - PI / 3) (a - PI / 3)),
    ?(sin_shift 1 (a + 2 * PI - PI / 3) (a - PI / 3))
    by (simpl; ring).

(** X4.  The five Lagrange points, the L1 and L2 halo orbits and the
    three low lunar orbits repeat after one full turn of the phase, that
    is after 2 PI / (BASE_ORBITAL_SPEED * simulationSpeed) milliseconds,
    at every speed other than zero. *)
Theorem X4_full_turn_period
    (type : OrbitType) (orbit : string) (t s : R) :
  s <> 0 ->
  (type = lagrange
   /\ In orbit ["l1"; "l2"; "l3"; "l4"; "l5"; "l1_halo"; "l2_halo"])
  \/ (type = moon
      /\ In orbit ["llo_circular"; "llo_elliptical"; "llo_polar"]) ->
  calculateNewPosition type orbit
    (t + 2 * PI / (BASE_ORBITAL_SPEED * s)) s
  = calculateNewPosition type orbit t s.
Proof.
  intros Hs Horbit.
  unfold calculateNewPosition; rewrite (phase_after_full_turn t s Hs).
  set (a := t * BASE_ORBITAL_SPEED * s).
  destruct Horbit as [[-> Hin] | [-> Hin]]; simpl in Hin;
    repeat (destruct Hin as [<- | Hin]; [| try contradiction]);
    try (unfold lagrangePosition, moonFamilyPosition; simpl;
         full_turn a; reflexivity).
Qed.

Lemma X4_full_turn_period_witness :
  calculateNewPosition moon "llo_polar"
    (1000 + 2 * PI / (BASE_ORBITAL_SPEED * 2)) 2
  = calculateNewPosition moon "llo_polar" 1000 2.
Proof.
  apply X4_full_turn_period; [lra |].
  right; split; [reflexivity | simpl; tauto].
Defined.

(** The identity sin^2 + cos^2 = 1 for every angle of the goal. *)
Ltac unit_circle :=
  repeat match goal with
         | |- context [cos ?a] =>
             lazymatch goal with
             | _ : sin a * sin a + cos a * cos a = 1 |- _ => fail
             | _ => pose proof (sin2_cos2 a : sin a * sin a + cos a * cos a = 1)
             end
         end.

(** X5.  The Lagrange points follow the Moon: L1 is the midpoint of the
    Earth (the origin) and the Moon, L3 is the Moon's mirror image
    through the Earth, and L4 and L5 each form an equilateral triangle
    with the Earth and the Moon (10 units from both). *)
Theorem X5_lagrange_points_follow_moon (t s : R) :
  let m := moonPosition t s in
  let origin : vec3 := (0, 0, 0) in
  calculateNewPosition lagrange "l1" t s = (at0 m / 2, at1 m / 2, at2 m / 2)
  /\ calculateNewPosition lagrange "l3" t s = (- at0 m, - at1 m, - at2 m)
  /\ distanceSquared (calculateNewPosition lagrange "l4" t s) m = 10 * 10
  /\ distanceSquared (calculateNewPosition lagrange "l4" t s) origin = 10 * 10
  /\ distanceSquared (calculateNewPosition lagrange "l5" t s) m = 10 * 10
  /\ distanceSquared (calculateNewPosition lagrange "l5" t s) origin
     = 10 * 10.
Proof.
  intros m origin; unfold m, origin, moonPosition, calculateNewPosition.
  set (a := t * BASE_ORBITAL_SPEED * s).
  unfold lagrangePosition, distanceSquared, at0, at1, at2; simpl.
  pose proof (cos_minus (a + PI / 3) a) as Hfore.
  replace (a + PI / 3 - a) with (PI / 3) in Hfore by ring.
  pose proof (cos_minus a (a - PI / 3)) as Haft.
  replace (a - (a - PI / 3)) with (PI / 3) in Haft by ring.
  rewrite cos_PI3 in Hfore, Haft.
  unit_circle.
  split; [f_equal; [f_equal |]; lra |].
  split; [f_equal; [f_equal |]; lra |].
  repeat split; nra.
Qed.

(** X6.  Every orbit of the ["moon"] family other than ["transfer"]
    (the fallback for unknown identifiers included) keeps the satellite
    between 1.26 and the square root of 13 units from the centre of the
    Moon, so outside the Moon's sphere of radius 1; the circular and the
    polar low orbit keep it at 1.5 exactly. *)
Theorem X6_moon_orbits_stay_near_moon (orbit : string) (t s : R) :
  orbit <> "transfer" ->
  let d2 :=
    distanceSquared (calculateNewPosition moon orbit t s)
                    (moonPosition t s) in
  (126 / 100) * (126 / 100) <= d2 <= 13
  /\ (orbit = "llo_circular" \/ orbit = "llo_polar" ->
      d2 = (15 / 10) * (15 / 10)).
Proof.
  intros Hnot d2; unfold d2, calculateNewPosition, moonPosition.
  set (a := t * BASE_ORBITAL_SPEED * s).
  unfold moonFamilyPosition.
  repeat match goal with
         | |- context [if (?o =? ?l)%string then _ else _] =>
             destruct (String.eqb_spec o l) as [-> | ?]
         end;
    try contradiction;
    cbv zeta; unfold distanceSquared, at0, at1, at2; cbn [fst snd];
    unit_circle; bound_trig;
    (split; [split; nra | intros [Heq | Heq]; try discriminate Heq;
                          try congruence; nra]).
Qed.

Lemma X6_moon_orbits_stay_near_moon_witness :
  distanceSquared (calculateNewPosition moon "llo_circular" 5000 1)
                  (moonPosition 5000 1)
  = (15 / 10) * (15 / 10).
Proof.
  apply (X6_moon_orbits_stay_near_moon "llo_circular" 5000 1).
  - discriminate.
  - left; reflexivity.
Defined.

(** X7.  Every orbit of the ["earth"] family, implemented or not, keeps
    the satellite 4 units from the Earth's axis and within 0.2 units of
    the equatorial plane; the geostationary orbit stays in that plane. *)
Theorem X7_earth_orbits_on_ring (orbit : string) (t s : R) :
  let p := calculateNewPosition earth orbit t s in
  at0 p * at0 p + at2 p * at2 p = 4 * 4
  /\ - (2 / 10) <= at1 p <= 2 / 10
  /\ (orbit = "geo" -> at1 p = 0).
Proof.
  intros p; unfold p, calculateNewPosition.
  set (a := t * BASE_ORBITAL_SPEED * s).
  unfold earthPosition.
  repeat match goal with
         | |- context [if (?o =? ?l)%string then _ else _] =>
             destruct (String.eqb_spec o l) as [-> | ?]
         end;
    unfold at0, at1, at2; cbn [fst snd]; unit_circle; bound_trig;
    (split; [nra | split; [lra |]]); intros Heq;
    try discriminate Heq; try congruence; reflexivity.
Qed.

Lemma X7_earth_orbits_on_ring_witness :
  at1 (calculateNewPosition earth "geo" 777 3) = 0.
Proof.
  apply (X7_earth_orbits_on_ring "geo" 777 3); reflexivity.
Defined.

Lemma moon_orbit_point (i : nat) :
  (i <= moonOrbitSegments)%nat ->
  nth i moonOrbitPoints (0, 0, 0)
  = (10 * cos (INR i / INR moonOrbitSegments * PI * 2), 0,
     10 * sin (INR i / INR moonOrbitSegments * PI * 2)).
Proof.
  intros Hi; unfold moonOrbitPoints.
  set (f := fun i : nat => _).
  rewrite (nth_indep _ (0, 0, 0) (f 0%nat))
    by (rewrite length_map, length_seq; lia).
  rewrite map_nth, seq_nth by lia; reflexivity.
Qed.

(** X8.  The orbit line of the Moon has 65 points, all on the circle of
    radius 10 in the plane y = 0; it starts at (10,0,0) and ends there,
    so the line is closed; and at every time and speed the position the
    [Moon] component sets is on that circle. *)
Theorem X8_moon_stays_on_its_orbit_line :
  List.length moonOrbitPoints = 65%nat
  /\ Forall (fun p => at0 p * at0 p + at2 p * at2 p = 10 * 10 /\ at1 p = 0)
            moonOrbitPoints
  /\ nth 0 moonOrbitPoints (0, 0, 0) = (10, 0, 0)
  /\ nth 64 moonOrbitPoints (0, 0, 0) = (10, 0, 0)
  /\ forall t s : R,
       at0 (moonPosition t s) * at0 (moonPosition t s)
       + at2 (moonPosition t s) * at2 (moonPosition t s) = 10 * 10
       /\ at1 (moonPosition t s) = 0.
Proof.
  split; [unfold moonOrbitPoints; rewrite length_map, length_seq;
          reflexivity |].
  split.
  { unfold moonOrbitPoints; apply Forall_forall; intros p Hp.
    apply in_map_iff in Hp; destruct Hp as (i & <- & _).
    unfold at0, at1, at2; cbn [fst snd]; unit_circle; split; [nra |
      reflexivity]. }
  split.
  { rewrite moon_orbit_point by (unfold moonOrbitSegments; lia).
    replace (INR 0 / INR moonOrbitSegments * PI * 2) with 0
      by (simpl; unfold Rdiv; ring).
    rewrite cos_0, sin_0; f_equal; [f_equal |]; ring. }
  split.
  { rewrite moon_orbit_point by (unfold moonOrbitSegments; lia).
    replace (INR 64 / INR moonOrbitSegments * PI * 2) with (2 * PI).
    - rewrite cos_2PI, sin_2PI; f_equal; [f_equal |]; ring.
    - unfold moonOrbitSegments; rewrite INR_IZR_INZ; simpl IZR; field. }
  intros t s; unfold moonPosition, at0, at1, at2; cbn [fst snd].
  unit_circle; split; [nra | reflexivity].
Qed.

(** ** The trail buffer over several ticks *)

Section TrailOrder.

Variables (orbitPeriod currentTime : R).

(** The update, with its two passes named. *)
Lemma updateTrail_passes (newPosition : vec3) (prev : list TrailPoint) :
  updateTrail orbitPeriod currentTime newPosition prev
  = map (refreshSample orbitPeriod currentTime)
        (filter (keepSample orbitPeriod currentTime) prev)
    ++ [{| position := newPosition; timestamp := currentTime;
           opacity := 1 |}].
Proof. exact (updateTrail_shape _ _ _ _). Qed.

Lemma keep_monotone (p q : TrailPoint) :
  timestamp p <= timestamp q ->
  keepSample orbitPeriod currentTime p = true ->
  keepSample orbitPeriod currentTime q = true.
Proof.
  unfold keepSample, ageSeconds; intros Hle Hp.
  apply Rleb_true in Hp; apply Rleb_true; lra.
Qed.

(** In a buffer in capture order the filter removes a front part. *)
Lemma filter_is_skipn (prev : list TrailPoint) :
  StronglySorted (fun p q => timestamp p <= timestamp q) prev ->
  exists k : nat,
    filter (keepSample orbitPeriod currentTime) prev = skipn k prev.
Proof.
  induction 1 as [| a l Hsorted IH Hall].
  - exists 0%nat; reflexivity.
  - cbn [filter]; destruct (keepSample orbitPeriod currentTime a) eqn:Ha.
    + exists 0%nat; cbn [skipn]; f_equal.
      apply forallb_filter_id, forallb_forall; intros q Hq.
      rewrite Forall_forall in Hall.
      exact (keep_monotone a q (Hall q Hq) Ha).
    + destruct IH as [k Hk]; exists (S k); exact Hk.
Qed.

Lemma sorted_filter (prev : list TrailPoint) :
  StronglySorted (fun p q => timestamp p <= timestamp q) prev ->
  StronglySorted (fun p q => timestamp p <= timestamp q)
                 (filter (keepSample orbitPeriod currentTime) prev).
Proof.
  induction 1 as [| a l Hsorted IH Hall]; cbn [filter];
    [constructor |].
  destruct (keepSample orbitPeriod currentTime a); [| exact IH].
  constructor; [exact IH |].
  rewrite Forall_forall in *; intros q Hq.
  apply filter_In in Hq; apply Hall; tauto.
Qed.

Lemma sorted_refresh (l : list TrailPoint) :
  StronglySorted (fun p q => timestamp p <= timestamp q) l ->
  StronglySorted (fun p q => timestamp p <= timestamp q)
                 (map (refreshSample orbitPeriod currentTime) l).
Proof.
  induction 1 as [| a l Hsorted IH Hall]; cbn [map]; constructor;
    [exact IH |].
  rewrite Forall_forall in *; intros q Hq.
  apply in_map_iff in Hq; destruct Hq as (q0 & <- & Hq0).
  exact (Hall q0 Hq0).
Qed.

Lemma sorted_snoc (l : list TrailPoint) (z : TrailPoint) :
  StronglySorted (fun p q => timestamp p <= timestamp q) l ->
  Forall (fun p => timestamp p <= timestamp z) l ->
  StronglySorted (fun p q => timestamp p <= timestamp q) (l ++ [z]).
Proof.
  induction 1 as [| a l Hsorted IH Hall]; intros Hz; cbn [app].
  - constructor; constructor.
  - inversion Hz as [| ? ? Ha Hl]; subst.
    constructor; [apply IH; exact Hl |].
    apply Forall_app; split; [exact Hall | constructor; [exact Ha |
      constructor]].
Qed.

End TrailOrder.

Lemma intervalTick_trail
    (type : OrbitType) (orbit : string) (speed now : R)
    (st : SatelliteState) :
  trail (intervalTick type orbit speed true now st)
  = map (refreshSample (calculateOrbitPeriod type orbit) now)
        (filter (keepSample (calculateOrbitPeriod type orbit) now) (trail st))
    ++ [{| position := calculateNewPosition type orbit now speed;
           timestamp := now; opacity := 1 |}].
Proof. unfold intervalTick; cbn [trail]; apply updateTrail_passes. Qed.

(** X9.  A tick with the trail shown leaves the satellite at the head of
    its trail: the buffer is not empty, its last sample is at the
    satellite's new position with the time of the tick and opacity 1,
    and the buffer has grown by one sample at most.  A tick with the
    trail hidden empties the buffer. *)
Theorem X9_tick_puts_satellite_at_head
    (type : OrbitType) (orbit : string) (speed now : R)
    (st : SatelliteState) :
  let shown := intervalTick type orbit speed true now st in
  last (trail shown) {| position := (0, 0, 0); timestamp := 0; opacity := 0 |}
  = {| position := satellitePosition shown; timestamp := now;
       opacity := 1 |}
  /\ (1 <= List.length (trail shown) <= List.length (trail st) + 1)%nat
  /\ trail (intervalTick type orbit speed false now st) = [].
Proof.
  intros shown; unfold shown; rewrite intervalTick_trail.
  split; [apply last_last | split; [| reflexivity]].
  rewrite length_app, length_map; cbn [List.length].
  pose proof (filter_length_le
                (keepSample (calculateOrbitPeriod type orbit) now)
                (trail st)).
  lia.
Qed.

(** X10.  Ticks keep the buffer in capture order: when the timestamps of
    the buffer are in order and none is later than the time of the tick,
    the same holds after the tick, whether the trail is shown or not. *)
Theorem X10_tick_keeps_capture_order
    (type : OrbitType) (orbit : string) (speed : R) (showTrail : bool)
    (now : R) (st : SatelliteState) :
  chronological now (trail st) ->
  chronological now (trail (intervalTick type orbit speed showTrail now st)).
Proof.
  intros [Hsorted Hpast]; destruct showTrail;
    [| split; constructor].
  rewrite intervalTick_trail.
  set (period := calculateOrbitPeriod type orbit).
  assert (Hold : Forall (fun p => timestamp p <= now)
                        (map (refreshSample period now)
                             (filter (keepSample period now) (trail st)))).
  { rewrite Forall_forall in *; intros p Hp.
    apply in_map_iff in Hp; destruct Hp as (q & <- & Hq).
    apply filter_In in Hq; destruct Hq as [Hq _].
    exact (Hpast q Hq). }
  split.
  - apply sorted_snoc; [| exact Hold].
    apply sorted_refresh, sorted_filter; exact Hsorted.
  - apply Forall_app; split; [exact Hold |].
    constructor; [cbn; lra | constructor].
Qed.

Lemma X10_tick_keeps_capture_order_witness :
  let st :=
    {| satellitePosition := (5, 0, 0);
       trail := [{| position := (5, 0, 0); timestamp := 0; opacity := 1 |};
                 {| position := (5, 0, 0); timestamp := 16;
                    opacity := 1 |}] |} in
  chronological 32 (trail (intervalTick lagrange "l1" 1 true 32 st)).
Proof.
  intros st; apply X10_tick_keeps_capture_order.
  split.
  - repeat constructor; cbn; lra.
  - repeat constructor; cbn; lra.
Defined.

(** X11.  Eviction is from the front: on a buffer in capture order a
    tick drops the first [k] samples, for some [k], and keeps all the
    others, in order, with recomputed opacity, before the new sample. *)
Theorem X11_tick_evicts_from_front
    (type : OrbitType) (orbit : string) (speed now : R)
    (st : SatelliteState) :
  chronological now (trail st) ->
  exists k : nat,
    trail (intervalTick type orbit speed true now st)
    = map (refreshSample (calculateOrbitPeriod type orbit) now)
          (skipn k (trail st))
      ++ [{| position := calculateNewPosition type orbit now speed;
             timestamp := now; opacity := 1 |}].
Proof.
  intros [Hsorted _].
  destruct (filter_is_skipn (calculateOrbitPeriod type orbit) now
                            (trail st) Hsorted) as [k Hk].
  exists k; rewrite intervalTick_trail, Hk; reflexivity.
Qed.

Lemma X11_tick_evicts_from_front_witness :
  let st :=
    {| satellitePosition := (5, 0, 0);
       trail := [{| position := (5, 0, 0); timestamp := 0; opacity := 1 |};
                 {| position := (5, 0, 0); timestamp := 16;
                    opacity := 1 |}] |} in
  exists k : nat,
    trail (intervalTick lagrange "l1" 1 true 120010 st)
    = map (refreshSample (calculateOrbitPeriod lagrange "l1") 120010)
          (skipn k (trail st))
      ++ [{| position := calculateNewPosition lagrange "l1" 120010 1;
             timestamp := 120010; opacity := 1 |}].
Proof.
  intros st; apply X11_tick_evicts_from_front.
  split.
  - repeat constructor; cbn; lra.
  - repeat constructor; cbn; lra.
Defined.

(** X12.  When no sample of the buffer is later than the tick, every
    sample of the buffer after the tick has an opacity between 0 and 2,
    and every sample but the new one has exactly [2 - age / period]: the
    lower clamp never acts on a sample that is retained. *)
Theorem X12_opacity_after_tick
    (type : OrbitType) (orbit : string) (speed now : R)
    (st : SatelliteState) :
  Forall (fun p => timestamp p <= now) (trail st) ->
  let period := calculateOrbitPeriod type orbit in
  let after := trail (intervalTick type orbit speed true now st) in
  Forall (fun p => 0 <= opacity p <= 2) after
  /\ Forall (fun p => opacity p = 2 - ageSeconds now p / period)
            (removelast after).
Proof.
  intros Hpast period after.
  assert (Hperiod : 0 < period) by apply calculateOrbitPeriod_pos.
  unfold after; rewrite intervalTick_trail; fold period.
  assert (Hold : Forall (fun p => opacity p = 2 - ageSeconds now p / period
                                  /\ 0 <= opacity p <= 2)
                        (map (refreshSample period now)
                             (filter (keepSample period now) (trail st)))).
  { rewrite Forall_forall in *; intros p Hp.
    apply in_map_iff in Hp; destruct Hp as (q & <- & Hq).
    apply filter_In in Hq; destruct Hq as [Hin Hkeep].
    apply Rleb_true in Hkeep; specialize (Hpast q Hin).
    unfold ageSeconds in *; cbn [opacity timestamp refreshSample].
    rewrite specOpacity_linear by lra.
    set (age := (now - timestamp q) / 1000) in *.
    assert (Hage : 0 <= age) by (unfold age; lra).
    assert (Hratio : 0 <= age / period <= 2).
    { split.
      - apply Rmult_le_reg_r with period; [exact Hperiod |].
        replace (age / period * period) with age by (field; lra); lra.
      - apply Rmult_le_reg_r with period; [exact Hperiod |].
        replace (age / period * period) with age by (field; lra); lra. }
    rewrite Rmax_right by lra; lra. }
  split.
  - apply Forall_app; split.
    + eapply Forall_impl; [| exact Hold]; cbn; tauto.
    + constructor; [cbn; lra | constructor].
  - rewrite removelast_last.
    eapply Forall_impl; [| exact Hold]; cbn; tauto.
Qed.

Lemma X12_opacity_after_tick_witness :
  let st :=
    {| satellitePosition := (5, 0, 0);
       trail := [{| position := (5, 0, 0); timestamp := 0;
                    opacity := 1 |}] |} in
  Forall (fun p => 0 <= opacity p <= 2)
         (trail (intervalTick lagrange "l1" 1 true 16 st)).
Proof.
  intros st.
  apply (X12_opacity_after_tick lagrange "l1" 1 16 st).
  repeat constructor; cbn; lra.
Defined.

Lemma keep_later_tick (period now1 now2 : R) (l : list TrailPoint) :
  now1 <= now2 ->
  filter (keepSample period now2) (filter (keepSample period now1) l)
  = filter (keepSample period now2) l.
Proof.
  intros Hle; induction l as [| a l IH]; [reflexivity |].
  cbn [filter].
  destruct (keepSample period now1 a) eqn:H1; cbn [filter].
  - rewrite IH; reflexivity.
  - destruct (keepSample period now2 a) eqn:H2; [| exact IH].
    unfold keepSample, ageSeconds in *.
    apply Rleb_true in H2.
    assert (Hkeep : Rleb ((now1 - timestamp a) / 1000) (period * 2) = true)
      by (apply Rleb_true; lra).
    congruence.
Qed.

(** X13.  Ticks compose: after two ticks of one selector, the second no
    earlier than the first, the buffer is what the second tick alone
    makes of the old buffer extended by the first tick's sample.  The
    opacities that the first tick computed play no part in it. *)
Theorem X13_ticks_compose
    (type : OrbitType) (orbit : string) (speed now1 now2 : R)
    (st : SatelliteState) :
  now1 <= now2 ->
  let first := intervalTick type orbit speed true now1 st in
  trail (intervalTick type orbit speed true now2 first)
  = trail (intervalTick type orbit speed true now2
             {| satellitePosition := satellitePosition st;
                trail := trail st
                         ++ [{| position := satellitePosition first;
                                timestamp := now1; opacity := 1 |}] |}).
Proof.
  intros Hle first; unfold first.
  rewrite !intervalTick_trail; cbn [trail satellitePosition intervalTick].
  set (period := calculateOrbitPeriod type orbit).
  f_equal.
  rewrite !filter_app, !map_app; f_equal.
  rewrite filter_after_map, map_map.
  rewrite (filter_ext _ (keepSample period now2)) by reflexivity.
  rewrite keep_later_tick by exact Hle.
  apply map_ext; reflexivity.
Qed.

Lemma X13_ticks_compose_witness :
  let st := {| satellitePosition := (5, 0, 0); trail := [] |} in
  trail (intervalTick earth "geo" 1 true 32
           (intervalTick earth "geo" 1 true 16 st))
  = trail (intervalTick earth "geo" 1 true 32
             {| satellitePosition := (5, 0, 0);
                trail := [{| position :=
                               calculateNewPosition earth "geo" 16 1;
                             timestamp := 16; opacity := 1 |}] |}).
Proof.
  intros st.
  apply (X13_ticks_compose earth "geo" 1 16 32 st); lra.
Defined.

Section Spacing.

Variable gap : R.
Hypothesis gap_nonneg : 0 <= gap.

Lemma spaced_tail (a : R) (rest : list R) :
  spaced gap (a :: rest) -> spaced gap rest.
Proof. destruct rest; cbn; tauto. Qed.

Lemma spaced_all_later (a : R) (rest : list R) :
  spaced gap (a :: rest) -> Forall (fun b => a + gap <= b) rest.
Proof.
  revert a; induction rest as [| b rest IH]; intros a Hs; constructor.
  - cbn in Hs; tauto.
  - destruct Hs as [Hab Hrest].
    eapply Forall_impl; [| exact (IH b Hrest)].
    cbn; intros c Hc; lra.
Qed.

(** Dropping samples keeps the spacing. *)
Lemma spaced_filter (f : TrailPoint -> bool) (l : list TrailPoint) (z : R) :
  spaced gap (map timestamp l ++ [z]) ->
  spaced gap (map timestamp (filter f l) ++ [z]).
Proof.
  induction l as [| a l IH]; [trivial |].
  intros Hs; cbn [map app] in Hs.
  pose proof (spaced_all_later _ _ Hs) as Hlater.
  specialize (IH (spaced_tail _ _ Hs)).
  cbn [filter]; destruct (f a); [| exact IH].
  cbn [map app].
  destruct (map timestamp (filter f l) ++ [z]) as [| b rest] eqn:Heq;
    [exact I |].
  split; [| exact IH].
  rewrite Forall_forall in Hlater; apply Hlater.
  assert (Hin : In b (map timestamp (filter f l) ++ [z]))
    by (rewrite Heq; left; reflexivity).
  apply in_app_iff in Hin; apply in_app_iff.
  destruct Hin as [Hin | Hin]; [left | right; exact Hin].
  apply in_map_iff in Hin; destruct Hin as (q & <- & Hq).
  apply in_map, (proj1 (filter_In f q l)); exact Hq.
Qed.

(** A spaced list spans at least one gap per step. *)
Lemma spaced_span (l : list R) (a z : R) :
  spaced gap (a :: l ++ [z]) ->
  a + INR (S (List.length l)) * gap <= z.
Proof.
  revert a; induction l as [| b l IH]; intros a Hs.
  - cbn in Hs; cbn [List.length]; rewrite INR_1; lra.
  - destruct Hs as [Hab Hrest]; specialize (IH b Hrest).
    cbn [List.length]; rewrite (S_INR (S (List.length l))); lra.
Qed.

End Spacing.

(** X14.  The buffer limits itself: when consecutive samples are
    captured at least [gap] milliseconds apart, the steps between the
    samples of the buffer after a tick span two periods at most, that is
    [(length - 1) * gap <= 2000 * period]. *)
Theorem X14_trail_length_bounded
    (type : OrbitType) (orbit : string) (speed now gap : R)
    (st : SatelliteState) :
  0 <= gap ->
  spaced gap (map timestamp (trail st) ++ [now]) ->
  let after := trail (intervalTick type orbit speed true now st) in
  INR (List.length after - 1) * gap
  <= 1000 * (2 * calculateOrbitPeriod type orbit).
Proof.
  intros Hgap Hspaced after; unfold after.
  rewrite intervalTick_trail.
  set (period := calculateOrbitPeriod type orbit).
  assert (Hperiod : 0 < period) by apply calculateOrbitPeriod_pos.
  rewrite length_app, length_map; cbn [List.length].
  replace (List.length (filter (keepSample period now) (trail st)) + 1 - 1)%nat
    with (List.length (filter (keepSample period now) (trail st))) by lia.
  pose proof (spaced_filter gap Hgap (keepSample period now) (trail st) now
                            Hspaced) as Hkept.
  destruct (filter (keepSample period now) (trail st)) as [| q kept] eqn:Heq.
  - cbn; lra.
  - assert (Hq : keepSample period now q = true).
    { assert (Hin : In q (filter (keepSample period now) (trail st)))
        by (rewrite Heq; left; reflexivity).
      apply filter_In in Hin; tauto. }
    unfold keepSample, ageSeconds in Hq; apply Rleb_true in Hq.
    cbn [map app] in Hkept.
    pose proof (spaced_span gap (map timestamp kept) (timestamp q) now Hkept)
      as Hspan.
    rewrite length_map in Hspan; cbn [List.length]; lra.
Qed.

Lemma X14_trail_length_bounded_witness :
  let st :=
    {| satellitePosition := (5, 0, 0);
       trail := [{| position := (5, 0, 0); timestamp := 0; opacity := 1 |};
                 {| position := (5, 0, 0); timestamp := 16;
                    opacity := 1 |}] |} in
  INR (List.length (trail (intervalTick moon "frozen" 1 true 32 st)) - 1)
  * 16
  <= 1000 * (2 * calculateOrbitPeriod moon "frozen").
Proof.
  intros st.
  apply (X14_trail_length_bounded moon "frozen" 1 32 16 st); [lra |].
  cbn; lra.
Defined.

(** ** The effect that resets the trail *)

Lemma OrbitType_eqb_eq (a b : OrbitType) :
  OrbitType_eqb a b = true <-> a = b.
Proof. destruct a, b; cbn; split; congruence. Qed.

Lemma Rneqb_false (a b : R) : Rneqb a b = false <-> a = b.
Proof. unfold Rneqb; destruct (Req_dec_T a b); split; congruence. Qed.

(** The test of the effect fails exactly when the ref holds the props. *)
Lemma reset_test (prevOrbitRef : OrbitRef) (type : OrbitType)
    (orbit : string) (speed : R) :
  negb (OrbitType_eqb (refType prevOrbitRef) type)
  || negb (refSpecific prevOrbitRef =? orbit)%string
  || Rneqb (refSpeed prevOrbitRef) speed = false
  <-> prevOrbitRef
      = {| refType := type; refSpecific := orbit; refSpeed := speed |}.
Proof.
  destruct prevOrbitRef as [t0 o0 s0]; cbn [refType refSpecific refSpeed].
  rewrite !orb_false_iff, !negb_false_iff, OrbitType_eqb_eq, String.eqb_eq,
    Rneqb_false.
  split.
  - intros [[-> ->] ->]; reflexivity.
  - intros Heq; injection Heq as -> -> ->; auto.
Qed.

(** X15.  The reset effect empties the trail exactly when the orbit
    type, the specific orbit or the speed differs from what the ref
    holds, and leaves the trail alone otherwise; either way the ref
    holds the three props afterwards, so running the effect again with
    the same props changes nothing. *)
Theorem X15_reset_effect
    (prevOrbitRef : OrbitRef) (type : OrbitType) (orbit : string)
    (speed : R) (samples : list TrailPoint) :
  let props :=
    {| refType := type; refSpecific := orbit; refSpeed := speed |} in
  let result := trailResetEffect prevOrbitRef type orbit speed samples in
  fst result = props
  /\ (prevOrbitRef = props -> snd result = samples)
  /\ (prevOrbitRef <> props -> snd result = [])
  /\ trailResetEffect (fst result) type orbit speed (snd result) = result.
Proof.
  intros props result.
  assert (Hheld : forall l, trailResetEffect props type orbit speed l
                            = (props, l)).
  { intros l; unfold trailResetEffect.
    rewrite (proj2 (reset_test props type orbit speed) eq_refl).
    reflexivity. }
  unfold result, trailResetEffect.
  destruct (negb (OrbitType_eqb (refType prevOrbitRef) type)
            || negb (refSpecific prevOrbitRef =? orbit)%string
            || Rneqb (refSpeed prevOrbitRef) speed) eqn:Htest;
    cbn [fst snd].
  - split; [reflexivity | split; [| split; [reflexivity | apply Hheld]]].
    intros Heq; apply reset_test in Heq; congruence.
  - apply reset_test in Htest; fold props in Htest; subst prevOrbitRef.
    split; [reflexivity | split; [reflexivity | split; [| apply Hheld]]].
    intros Hne; contradiction.
Qed.

Lemma X15_reset_effect_witness :
  let sample := {| position := (5, 0, 0); timestamp := 0; opacity := 1 |} in
  snd (trailResetEffect (mkOrbitRef lagrange "l1" 1) lagrange "l1" 2
                        [sample; sample])
  = []
  /\ snd (trailResetEffect (mkOrbitRef lagrange "l1" 1) lagrange "l1" 1
                           [sample; sample])
     = [sample; sample].
Proof.
  intros sample; split.
  - apply (X15_reset_effect (mkOrbitRef lagrange "l1" 1) lagrange "l1" 2).
    intros Heq; injection Heq; lra.
  - apply (X15_reset_effect (mkOrbitRef lagrange "l1" 1) lagrange "l1" 1).
    reflexivity.
Defined.

(** ** The ribbon *)

Lemma segmentIndices_below (n i : nat) :
  (i + 1 < n)%nat -> Forall (fun k => (k < 2 * n)%nat) (segmentIndices i).
Proof.
  intros Hi; unfold segmentIndices; cbv zeta.
  repeat constructor; lia.
Qed.

(** X16.  For parallel arrays of one length N the builder always
    succeeds, with 6 N numbers in each buffer (two vertices per sample)
    and 6 (N - 1) indices (two triangles per segment), and every index
    names one of the 2 N vertices. *)
Theorem X16_geometry_sizes
    (points : list vec3) (colors : list Color) (lineWidths : list R) :
  let N := List.length points in
  List.length colors = N ->
  List.length lineWidths = N ->
  exists geometry : BufferGeometry,
    generateTrailGeometry points colors lineWidths = Some geometry
    /\ List.length (positions geometry) = (6 * N)%nat
    /\ List.length (vertexColors geometry) = (6 * N)%nat
    /\ List.length (indices geometry) = (6 * (N - 1))%nat
    /\ Forall (fun k => (k < 2 * N)%nat) (indices geometry).
Proof.
  intros N Hc Hw.
  pose proof (generateTrailGeometry_closed points colors lineWidths Hc Hw)
    as Hgen; cbv zeta in Hgen; fold N in Hgen.
  eexists; split; [exact Hgen |]; cbn [positions vertexColors indices].
  split; [rewrite length_app, writtenPositions_length, repeat_length; lia |].
  split; [rewrite length_app, writtenColors_length, repeat_length; lia |].
  split.
  - assert (Hlen : forall l, List.length (flat_map segmentIndices l)
                             = (6 * List.length l)%nat).
    { induction l as [| i l IH]; [reflexivity |].
      cbn [flat_map]; rewrite length_app, IH; cbn; lia. }
    rewrite Hlen, length_seq; reflexivity.
  - apply Forall_flat_map, Forall_forall; intros i Hi.
    apply in_seq in Hi; apply segmentIndices_below; lia.
Qed.

Lemma X16_geometry_sizes_witness :
  exists geometry : BufferGeometry,
    generateTrailGeometry [(1, 0, 0); (2, 0, 0); (3, 0, 1); (4, 1, 1)]
                          [mkColor 1 1 1; mkColor 1 1 1; mkColor 1 1 1;
                           mkColor 1 1 1]
                          [1; 1; 1; 1]
    = Some geometry
    /\ List.length (indices geometry) = 18%nat
    /\ Forall (fun k => (k < 8)%nat) (indices geometry).
Proof.
  destruct (X16_geometry_sizes
              [(1, 0, 0); (2, 0, 0); (3, 0, 1); (4, 1, 1)]
              [mkColor 1 1 1; mkColor 1 1 1; mkColor 1 1 1; mkColor 1 1 1]
              [1; 1; 1; 1] eq_refl eq_refl)
    as (geometry & Hgen & _ & _ & Hlen & Hrange).
  exists geometry; split; [exact Hgen | split; [exact Hlen | exact Hrange]].
Defined.

(** A vector that is not zero normalizes to a vector of length one. *)
Lemma unitOf_norm (v : Vector3.t) :
  Vector3.length v <> 0 ->
  Vector3.x (unitOf v) * Vector3.x (unitOf v)
  + Vector3.y (unitOf v) * Vector3.y (unitOf v)
  + Vector3.z (unitOf v) * Vector3.z (unitOf v) = 1.
Proof.
  intros Hnz; unfold unitOf, Vector3.orOne.
  destruct (Req_dec_T (Vector3.length v) 0) as [Hz | _]; [contradiction |].
  assert (Hsq : Vector3.length v * Vector3.length v
                = Vector3.x v * Vector3.x v + Vector3.y v * Vector3.y v
                  + Vector3.z v * Vector3.z v).
  { unfold Vector3.length; apply sqrt_sqrt.
    pose proof (Rle_0_sqr (Vector3.x v)); pose proof (Rle_0_sqr (Vector3.y v));
      pose proof (Rle_0_sqr (Vector3.z v)); unfold Rsqr in *; lra. }
  unfold Vector3.multiplyScalar; cbn [Vector3.x Vector3.y Vector3.z].
  set (L := Vector3.length v) in *.
  replace (Vector3.x v * (1 / L) * (Vector3.x v * (1 / L))
           + Vector3.y v * (1 / L) * (Vector3.y v * (1 / L))
           + Vector3.z v * (1 / L) * (Vector3.z v * (1 / L)))
    with ((Vector3.x v * Vector3.x v + Vector3.y v * Vector3.y v
           + Vector3.z v * Vector3.z v) / (L * L)) by (field; exact Hnz).
  rewrite <- Hsq; field; exact Hnz.
Qed.

Lemma length_horizontal_nonzero (v : Vector3.t) :
  Vector3.x v <> 0 \/ Vector3.z v <> 0 -> Vector3.length v <> 0.
Proof.
  intros Hflat Hz; unfold Vector3.length in Hz.
  pose proof (Rle_0_sqr (Vector3.x v)); pose proof (Rle_0_sqr (Vector3.y v));
    pose proof (Rle_0_sqr (Vector3.z v)); unfold Rsqr in *.
  assert (Hsum : Vector3.x v * Vector3.x v + Vector3.y v * Vector3.y v
                 + Vector3.z v * Vector3.z v = 0)
    by (apply sqrt_eq_0; [lra | exact Hz]).
  destruct Hflat as [Hx | Hx];
    pose proof (Rsqr_pos_lt _ Hx) as Hpos; unfold Rsqr in Hpos; clear Hz;
    nra.
Qed.

(** The perpendicular of a segment that is not vertical is a unit vector. *)
Lemma segmentPerpendicular_unit (current next : vec3) :
  at0 current <> at0 next \/ at2 current <> at2 next ->
  Vector3.x (segmentPerpendicular current next)
  * Vector3.x (segmentPerpendicular current next)
  + Vector3.z (segmentPerpendicular current next)
    * Vector3.z (segmentPerpendicular current next) = 1.
Proof.
  intros Hflat.
  destruct (segmentPerpendicular_form current next) as (c & _ & _ & Hy & _).
  unfold segmentPerpendicular in *.
  set (d := Vector3.mk (at0 next - at0 current) (at1 next - at1 current)
                       (at2 next - at2 current)) in *.
  set (q := Vector3.mk (- Vector3.z (unitOf d)) 0 (Vector3.x (unitOf d)))
    in *.
  assert (Hd : Vector3.length d <> 0).
  { apply length_horizontal_nonzero; unfold d; cbn [Vector3.x Vector3.z].
    destruct Hflat; [left | right]; lra. }
  assert (Hq : Vector3.length q <> 0).
  { apply length_horizontal_nonzero.
    pose proof (orOne_pos _ (length_nonneg d)) as Hpos.
    assert (Hinv : 0 < 1 / Vector3.orOne (Vector3.length d))
      by (apply Rdiv_lt_0_compat; lra).
    unfold q, unitOf, Vector3.multiplyScalar; cbn [Vector3.x Vector3.z].
    set (k := 1 / Vector3.orOne (Vector3.length d)) in *.
    unfold d; cbn [Vector3.x Vector3.z].
    destruct Hflat as [Hx | Hzz]; [right | left]; intros Hzero.
    - apply Rmult_integral in Hzero; destruct Hzero; lra.
    - assert (Hprod : (at2 next - at2 current) * k = 0) by lra.
      apply Rmult_integral in Hprod; destruct Hprod; lra. }
  pose proof (unitOf_norm q Hq) as Hnorm.
  rewrite Hy in Hnorm; lra.
Qed.

(** X17.  The two vertices of a sample that starts a segment lie at the
    sample's height, on either side of it: their midpoint is the sample,
    and their offset is at a right angle to the segment.  When the
    segment is not vertical they are [2 * (lineWidth * 0.1)] apart. *)
Theorem X17_ribbon_straddles_sample
    (points : list vec3) (colors : list Color) (lineWidths : list R)
    (geometry : BufferGeometry) (i : nat) :
  List.length colors = List.length points ->
  List.length lineWidths = List.length points ->
  generateTrailGeometry points colors lineWidths = Some geometry ->
  (i + 1 < List.length points)%nat ->
  let p := nth i points (0, 0, 0) in
  let next := nth (i + 1) points (0, 0, 0) in
  let left := vertex geometry (2 * i) in
  let right := vertex geometry (2 * i + 1) in
  let width := nth i lineWidths 0 * (1 / 10) in
  (at0 left + at0 right = 2 * at0 p
   /\ at2 left + at2 right = 2 * at2 p
   /\ at1 left = at1 p /\ at1 right = at1 p)
  /\ (at0 left - at0 right) * (at0 next - at0 p)
     + (at1 left - at1 right) * (at1 next - at1 p)
     + (at2 left - at2 right) * (at2 next - at2 p) = 0
  /\ (at0 p <> at0 next \/ at2 p <> at2 next ->
      distanceSquared left right = (2 * width) * (2 * width)).
Proof.
  intros Hc Hw Hgen Hi p next left right width.
  destruct (segment_vertices points colors lineWidths Hc Hw geometry i
                             Hgen Hi) as [Hl Hr].
  fold p next width in Hl, Hr; fold left in Hl; fold right in Hr.
  destruct (segmentPerpendicular_form p next) as (c & _ & Hx & _ & Hz).
  rewrite Hl, Hr; unfold distanceSquared, at0, at1, at2; cbn [fst snd].
  split; [repeat split; ring | split].
  - rewrite Hx, Hz; unfold at0, at2; ring.
  - intros Hflat.
    pose proof (segmentPerpendicular_unit p next Hflat) as Hunit.
    set (px := Vector3.x (segmentPerpendicular p next)) in *.
    set (pz := Vector3.z (segmentPerpendicular p next)) in *.
    replace (_ + _ + _)
      with (2 * width * (2 * width) * (px * px + pz * pz)) by ring.
    rewrite Hunit; ring.
Qed.

Lemma X17_ribbon_straddles_sample_witness :
  exists geometry : BufferGeometry,
    generateTrailGeometry [(1, 0, 0); (2, 0, 0)]
                          [mkColor 1 1 1; mkColor 1 1 1] [1; 1]
    = Some geometry
    /\ distanceSquared (vertex geometry 0) (vertex geometry 1)
       = (2 * (1 * (1 / 10))) * (2 * (1 * (1 / 10))).
Proof.
  pose proof (generateTrailGeometry_closed
                [(1, 0, 0); (2, 0, 0)] [mkColor 1 1 1; mkColor 1 1 1] [1; 1]
                eq_refl eq_refl) as Hgen; cbv zeta in Hgen.
  eexists; split; [exact Hgen |].
  apply (X17_ribbon_straddles_sample
           [(1, 0, 0); (2, 0, 0)] [mkColor 1 1 1; mkColor 1 1 1] [1; 1]
           _ 0 eq_refl eq_refl Hgen).
  - simpl; lia.
  - left; unfold at0; simpl; lra.
Defined.

Lemma nth_writtenColors (colors : list Color) (n i k : nat) :
  (i < n)%nat -> (k < 6)%nat ->
  nth (i * 6 + k) (writtenColors colors n) 0
  = nth k (segmentColors (nth i colors (mkColor 0 0 0))) 0.
Proof.
  intros Hi Hk; induction n as [| n IH]; [lia |].
  rewrite writtenColors_S.
  destruct (Nat.eq_dec i n) as [-> | Hne].
  - rewrite app_nth2; rewrite writtenColors_length; [| lia].
    replace (n * 6 + k - n * 6)%nat with k by lia; reflexivity.
  - rewrite app_nth1; [apply IH; lia |].
    rewrite writtenColors_length; lia.
Qed.

(** X18.  Both vertices of a sample that starts a segment carry the base
    colour of the satellite multiplied by the sample's opacity. *)
Theorem X18_ribbon_colours
    (color : Color) (samples : list TrailPoint)
    (geometry : BufferGeometry) (i : nat) (here : TrailPoint) :
  trailGeometry color samples = Some geometry ->
  nth_error samples i = Some here ->
  (i + 1 < List.length samples)%nat ->
  let shade :=
    (r color * opacity here, g color * opacity here, b color * opacity here)
  in
  vertexColor geometry (2 * i) = shade
  /\ vertexColor geometry (2 * i + 1) = shade.
Proof.
  intros Hgen Hhere Hi shade; unfold trailGeometry in Hgen.
  rewrite generateTrailGeometry_closed in Hgen
    by (rewrite !length_map; reflexivity).
  injection Hgen as <-.
  rewrite !length_map.
  set (colors := map (fun point => colorMultiplyScalar color (opacity point))
                     samples).
  assert (Hcolor : nth i colors (mkColor 0 0 0)
                   = colorMultiplyScalar color (opacity here)).
  { apply nth_error_nth; unfold colors.
    rewrite nth_error_map, Hhere; reflexivity. }
  assert (Hread : forall k, (k < 6)%nat ->
            nth (i * 6 + k)
                (writtenColors colors (List.length samples - 1)
                 ++ repeat 0 (6 * (List.length samples
                                   - (List.length samples - 1)))) 0
            = nth k (segmentColors (colorMultiplyScalar color
                                                        (opacity here))) 0).
  { intros k Hk; rewrite app_nth1.
    - rewrite nth_writtenColors by lia; rewrite Hcolor; reflexivity.
    - rewrite writtenColors_length; lia. }
  unfold vertexColor; cbn [vertexColors].
  replace (3 * (2 * i))%nat with (i * 6 + 0)%nat by lia.
  replace (3 * (2 * i + 1))%nat with (i * 6 + 3)%nat by lia.
  replace (i * 6 + 0 + 1)%nat with (i * 6 + 1)%nat by lia.
  replace (i * 6 + 0 + 2)%nat with (i * 6 + 2)%nat by lia.
  replace (i * 6 + 3 + 1)%nat with (i * 6 + 4)%nat by lia.
  replace (i * 6 + 3 + 2)%nat with (i * 6 + 5)%nat by lia.
  rewrite !Hread by lia.
  split; reflexivity.
Qed.

Lemma X18_ribbon_colours_witness :
  let samples :=
    [{| position := (1, 0, 0); timestamp := 0; opacity := 1 / 2 |};
     {| position := (2, 0, 0); timestamp := 16; opacity := 1 |}] in
  exists geometry : BufferGeometry,
    trailGeometry (mkColor 1 1 1) samples = Some geometry
    /\ vertexColor geometry 0 = (1 * (1 / 2), 1 * (1 / 2), 1 * (1 / 2)).
Proof.
  intros samples.
  pose proof (generateTrailGeometry_closed
                (map position samples)
                (map (fun point =>
                        colorMultiplyScalar (mkColor 1 1 1) (opacity point))
                     samples)
                (map opacity samples) eq_refl eq_refl) as Hgen.
  cbv zeta in Hgen.
  eexists; split; [exact Hgen |].
  apply (X18_ribbon_colours (mkColor 1 1 1) samples _ 0
           {| position := (1, 0, 0); timestamp := 0; opacity := 1 / 2 |}
           Hgen eq_refl).
  simpl; lia.
Defined.

(** X19.  A list of at most one point gives a geometry without any
    triangle, whose buffers hold zeros only: a single sample is never
    drawn. *)
Theorem X19_short_trail_has_no_triangle
    (points : list vec3) (colors : list Color) (lineWidths : list R) :
  List.length colors = List.length points ->
  List.length lineWidths = List.length points ->
  (List.length points <= 1)%nat ->
  generateTrailGeometry points colors lineWidths
  = Some {| positions := repeat 0 (6 * List.length points);
            vertexColors := repeat 0 (6 * List.length points);
            indices := [] |}.
Proof.
  intros Hc Hw Hshort.
  rewrite generateTrailGeometry_closed by assumption.
  replace (List.length points - 1)%nat with 0%nat by lia.
  rewrite Nat.sub_0_r; reflexivity.
Qed.

Lemma X19_short_trail_has_no_triangle_witness :
  generateTrailGeometry [(7, 8, 9)] [mkColor 1 1 1] [1]
  = Some {| positions := repeat 0 6; vertexColors := repeat 0 6;
            indices := [] |}.
Proof.
  apply (X19_short_trail_has_no_triangle [(7, 8, 9)] [mkColor 1 1 1] [1]);
    [reflexivity | reflexivity | simpl; lia].
Defined.

(** ** The handlers of the control panel *)

(** The case labels of the position function, by family. *)
Lemma first_option_has_trajectory :
  In "l1" lagrangeCases /\ In "geo" earthCases
  /\ In "llo_circular" moonCases.
Proof. cbn; tauto. Qed.

(** X20.  Changing to one of the three tabs selects that family and its
    first orbit, which is one the position function has a trajectory
    for; the speed, the size, the trail switch and the pause state are
    left as they are. *)
Theorem X20_tab_change_selects_first_orbit
    (value : OrbitType) (st : App.State) :
  value <> none ->
  let st' := App.handleTabChange value st in
  App.orbitType st' = value
  /\ App.activeTab st' = value
  /\ Some (App.specificOrbit st') = hd_error (orbitOptions value)
  /\ In (App.specificOrbit st')
        (match value with
         | lagrange => lagrangeCases
         | earth => earthCases
         | moon => moonCases
         | none => []
         end)
  /\ App.simulationSpeed st' = App.simulationSpeed st
  /\ App.satelliteSize st' = App.satelliteSize st
  /\ App.showTrail st' = App.showTrail st
  /\ App.isPaused st' = App.isPaused st.
Proof.
  intros Hvalue st'.
  destruct value; try contradiction; cbn; repeat split; tauto.
Qed.

Lemma X20_tab_change_selects_first_orbit_witness :
  App.specificOrbit (App.handleTabChange moon App.initial) = "llo_circular".
Proof.
  pose proof (X20_tab_change_selects_first_orbit moon App.initial
                ltac:(discriminate)) as (_ & _ & Hfirst & _).
  apply (f_equal (fun o => match o with Some id => id | None => "" end))
    in Hfirst.
  exact Hfirst.
Defined.

(** X21.  A reset followed by its animation-frame callback restores the
    orbit that was selected and sets speed 1, size 20, trail shown and
    not paused; between the two the orbit type is ['none'], so the
    satellite is unmounted. *)
Theorem X21_reset_round_trip (st : App.State) :
  let during := fst (App.handleReset st) in
  let captured := snd (App.handleReset st) in
  App.satelliteMounted during = false
  /\ App.restoreOrbit captured during
     = {| App.orbitType := App.orbitType st;
          App.specificOrbit := App.specificOrbit st;
          App.simulationSpeed := 1;
          App.satelliteSize := 20;
          App.showTrail := true;
          App.activeTab := App.activeTab st;
          App.isPaused := false |}.
Proof. split; reflexivity. Qed.

(** X22.  A second reset before the first callback has run captures the
    orbit type ['none']: once both callbacks have run, in the order they
    were requested, the orbit type is ['none'] and the satellite stays
    unmounted, whatever was selected before. *)
Theorem X22_second_reset_loses_satellite (st : App.State) :
  let first := App.handleReset st in
  let second := App.handleReset (fst first) in
  let final :=
    App.restoreOrbit (snd second)
                     (App.restoreOrbit (snd first) (fst second)) in
  App.orbitType final = none
  /\ App.satelliteMounted final = false
  /\ App.specificOrbit final = App.specificOrbit st.
Proof. repeat split. Qed.


